(** * Compact-rate encoding of the reserve SDK

    A shallow embedding of [reserve_sdk/contract.py]: the delta compaction
    [get_compact_data], the batch builder [build_compact_price] and the
    rate-setting orchestration of [ConversionRatesContract]
    ([get_token_indices], [build_price], [set_rates]).

    Python numbers are either unbounded integers or IEEE 754 binary64
    floats; the latter are modelled by the executable specification of
    the Standard Library ([SpecFloat], precision 53, emax 1024), so that
    the arithmetic of line 31, [int((rate/base - 1) * 1000)], is computed
    bit for bit. *)

From Stdlib Require Import ZArith Lia List Bool String.
From Stdlib Require Import Floats.SpecFloat.
From stdpp Require Import base option list gmap strings.

Open Scope Z_scope.

(** ** Exceptions and fallible results *)

Inductive exn :=
  | ZeroDivisionError
  | OverflowError
  | ValueError
  | KeyError
  | IndexError
  | ChainError (code : Z).

Inductive outcome (A : Type) :=
  | Ok (a : A)
  | Raise (e : exn).
Arguments Ok {A} a.
Arguments Raise {A} e.

Definition is_ok {A} (r : outcome A) : bool :=
  match r with Ok _ => true | Raise _ => false end.

Definition is_raise {A} (r : outcome A) : bool := negb (is_ok r).

#[global] Instance outcome_ret : MRet outcome := fun A a => Ok a.
#[global] Instance outcome_bind : MBind outcome := fun A B f r =>
  match r with
  | Ok a => f a
  | Raise e => Raise e
  end.

(** ** Python numbers *)

Module Float.
(** binary64 *)
Definition prec : Z := 53.
Definition emax : Z := 1024.

Definition t := spec_float.

Definition div : t -> t -> t := SFdiv prec emax.
Definition sub : t -> t -> t := SFsub prec emax.
Definition mul : t -> t -> t := SFmul prec emax.
Definition eqb : t -> t -> bool := SFeqb.
Definition ltb : t -> t -> bool := SFltb.
Definition valid : t -> bool := valid_binary prec emax.

Definition is_zero (f : t) : bool :=
  match f with S754_zero _ => true | _ => false end.

Definition is_inf (f : t) : bool :=
  match f with S754_infinity _ => true | _ => false end.

Definition is_nan (f : t) : bool :=
  match f with S754_nan => true | _ => false end.

(** Correctly rounded conversion of an integer (round to nearest, ties
    to even), as [PyLong_AsDouble] does; an integer too large for a
    double rounds to an infinity here and raises in [float_of_int]. *)
Definition of_Z (z : Z) : t := binary_normalize prec emax z 0 false.

(** Correctly rounded quotient of two integers, the value computed by
    [long_true_divide]; the sign of a zero quotient is the exclusive
    or of the signs, as there. *)
Definition div_Z (a b : Z) : t :=
  let '(mz, ez, lz) :=
    SFdiv_core_binary prec emax (Z.abs a) 0 (Z.abs b) 0 in
  binary_round_aux prec emax (xorb (a <? 0) (b <? 0)) mz ez lz.

(** The integer part of a finite float, rounded toward zero. *)
Definition trunc (f : t) : option Z :=
  match f with
  | S754_zero _ => Some 0
  | S754_finite s m e =>
      Some (cond_Zopp s
              (if 0 <=? e then Z.pos m * 2 ^ e else Z.pos m / 2 ^ (- e)))
  | S754_infinity _ | S754_nan => None
  end.

(** The integer part rounded toward minus infinity; not used by the
    code, kept to compare with [trunc]. *)
Definition floor (f : t) : option Z :=
  match f with
  | S754_zero _ => Some 0
  | S754_finite s m e =>
      Some (if 0 <=? e then cond_Zopp s (Z.pos m * 2 ^ e)
            else cond_Zopp s (Z.pos m) / 2 ^ (- e))
  | S754_infinity _ | S754_nan => None
  end.

(** Exact comparison of a float with an integer. *)
Definition eqb_Z (f : t) (z : Z) : bool :=
  match f with
  | S754_zero _ => z =? 0
  | S754_finite s m e =>
      if 0 <=? e then z =? cond_Zopp s (Z.pos m * 2 ^ e)
      else z * 2 ^ (- e) =? cond_Zopp s (Z.pos m)
  | S754_infinity _ | S754_nan => false
  end.
(** The exact value of a finite float is [num / den]. *)
Definition num (f : Float.t) : Z :=
  match f with
  | S754_finite s m e => cond_Zopp s (Z.pos m * 2 ^ Z.max e 0)
  | _ => 0
  end.

Definition den (f : Float.t) : Z :=
  match f with
  | S754_finite s m e => 2 ^ Z.max (- e) 0
  | _ => 1
  end.
End Float.

Inductive number :=
  | PyInt (z : Z)
  | PyFloat (f : Float.t).

(** [float(z)] *)
Definition float_of_int (z : Z) : outcome Float.t :=
  let f := Float.of_Z z in
  if Float.is_inf f then Raise OverflowError else Ok f.

Definition to_float (x : number) : outcome Float.t :=
  match x with
  | PyInt z => float_of_int z
  | PyFloat f => Ok f
  end.

(** [x == y] on numbers: integers and floats are compared by value. *)
Definition py_eq (x y : number) : bool :=
  match x, y with
  | PyInt a, PyInt b => a =? b
  | PyFloat f, PyFloat g => Float.eqb f g
  | PyInt a, PyFloat g => Float.eqb_Z g a
  | PyFloat f, PyInt b => Float.eqb_Z f b
  end.

(** [x != y] *)
Definition py_ne (x y : number) : bool := negb (py_eq x y).

(** [x > 0] *)
Definition py_pos (x : number) : bool :=
  match x with
  | PyInt a => 0 <? a
  | PyFloat f => Float.ltb (S754_zero false) f
  end.

(** [x / y], true division: always a float. *)
Definition py_truediv (x y : number) : outcome Float.t :=
  match x, y with
  | PyInt a, PyInt b =>
      if b =? 0 then Raise ZeroDivisionError
      else
        let q := Float.div_Z a b in
        if Float.is_inf q then Raise OverflowError else Ok q
  | _, _ =>
      fx ← to_float x;
      fy ← to_float y;
      if Float.is_zero fy then Raise ZeroDivisionError
      else Ok (Float.div fx fy)
  end.

(** [f - z] and [f * z] for a float [f] and an integer literal [z]. *)
Definition float_sub_int (f : Float.t) (z : Z) : outcome Float.t :=
  g ← float_of_int z; Ok (Float.sub f g).

Definition float_mul_int (f : Float.t) (z : Z) : outcome Float.t :=
  g ← float_of_int z; Ok (Float.mul f g).

(** [int(f)] *)
Definition py_int (f : Float.t) : outcome Z :=
  match f with
  | S754_nan => Raise ValueError
  | S754_infinity _ => Raise OverflowError
  | _ => match Float.trunc f with Some z => Ok z | None => Raise ValueError end
  end.

(** ** Compaction of one rate *)

Module TokenIndex.
Record t := mk { array_idx : Z; field_idx : Z }.
End TokenIndex.

#[global] Instance TokenIndex_eq_dec : EqDecision TokenIndex.t.
Proof. solve_decision. Defined.

Module CompactData.
Record t := mk { base : number; compact : Z }.
End CompactData.

(** Line 31: [int((rate/base - 1) * 1000)]. *)
Definition delta_bps (rate base : number) : outcome Z :=
  q ← py_truediv rate base;
  d ← float_sub_int q 1;
  p ← float_mul_int d 1000;
  py_int p.

Definition get_compact_data (rate base : number) : outcome CompactData.t :=
  if py_eq base (PyInt 0) then Ok (CompactData.mk rate 0)
  else
    compact ← delta_bps rate base;
    if (compact <=? -128) || (127 <=? compact) then
      Ok (CompactData.mk rate 0)
    else
      Ok (CompactData.mk base (if compact <? 0 then compact + 256 else compact)).

(** Reading a compact byte back as a signed delta. *)
Definition decode_compact (b : Z) : Z := if 127 <? b then b - 256 else b.

(** The double nearest to a decimal literal [n / 10^k], as the Python
    parser computes it for short literals. *)
Definition float_literal (n : Z) (k : Z) : Float.t := Float.div_Z n (10 ^ k).

(** The float 1.0. *)
Definition float_one : Float.t := S754_finite false 4503599627370496 (-52).

(** A number that Python can hold: any integer, and the floats that are
    binary64 values (canonical mantissa and exponent). *)
Definition valid_number (x : number) : bool :=
  match x with
  | PyInt _ => true
  | PyFloat f => Float.valid f
  end.

(** An infinite float; no integer is one. *)
Definition is_infinite (x : number) : bool :=
  match x with
  | PyInt _ => false
  | PyFloat f => Float.is_inf f
  end.

(** The compaction of a rate could not fit: there is no base yet, or the
    delta is outside -127..126. *)
Definition could_not_fit (rate base : number) : bool :=
  py_eq base (PyInt 0) ||
  match delta_bps rate base with
  | Ok d => (d <=? -128) || (127 <=? d)
  | Raise _ => false
  end.

(** What one leg (buy or sell) of a price update holds, given the rate
    asked for and the base recorded on the chain. *)
Definition leg_invariant (rate base : number) (new_base : number)
    (compact : Z) : Prop :=
  if could_not_fit rate base then new_base = rate /\ compact = 0
  else new_base = base /\
       exists d, delta_bps rate base = Ok d /\ -128 < d < 127 /\
                 compact = (if d <? 0 then d + 256 else d).

(** ** Price updates and the compact batch *)

Module Price.
Record t := mk {
  token : string;
  base_buy : number;
  base_sell : number;
  compact_buy : Z;
  compact_sell : Z;
  base_changed : bool
}.
End Price.

(** [l[i] = v]: a negative index counts from the end, an index outside
    [-len, len) raises [IndexError]. *)
Definition list_setitem (l : list Z) (i v : Z) : outcome (list Z) :=
  let n := Z.of_nat (length l) in
  if (0 <=? i) && (i <? n) then Ok (<[Z.to_nat i := v]> l)
  else if (- n <=? i) && (i <? 0) then Ok (<[Z.to_nat (n + i) := v]> l)
  else Raise IndexError.

(** The value of [result] in [build_compact_price]: a dict keeps its keys
    in insertion order, so it is an association list with unique keys. *)
Module Slot.
Record t := mk { buy : list Z; sell : list Z }.
End Slot.

Fixpoint dict_get {V} (k : Z) (d : list (Z * V)) : option V :=
  match d with
  | [] => None
  | (k', v) :: d' => if k' =? k then Some v else dict_get k d'
  end.

(** [d[k] = v]: an existing key keeps its position, a new key goes last. *)
Fixpoint dict_set {V} (k : Z) (v : V) (d : list (Z * V)) : list (Z * V) :=
  match d with
  | [] => [(k, v)]
  | (k', v') :: d' =>
      if k' =? k then (k', v) :: d' else (k', v') :: dict_set k v d'
  end.

Definition dict_mem {V} (k : Z) (d : list (Z * V)) : bool :=
  match dict_get k d with Some _ => true | None => false end.

(** A [for] loop that threads an accumulator and stops at the first
    exception. *)
Fixpoint for_each {A B} (f : B -> A -> outcome B) (b : B) (l : list A)
  : outcome B :=
  match l with
  | [] => Ok b
  | a :: l' => b' ← f b a; for_each f b' l'
  end.

(** [token_indices[tok]] *)
Definition getitem (token_indices : gmap string TokenIndex.t) (tok : string)
  : outcome TokenIndex.t :=
  match token_indices !! tok with
  | Some i => Ok i
  | None => Raise KeyError
  end.

Definition fresh_slot : Slot.t :=
  Slot.mk (replicate 14 0) (replicate 14 0).

(** The body of the first loop of [build_compact_price], lines 56-66. *)
Definition compact_price_step (token_indices : gmap string TokenIndex.t)
    (result : list (Z * Slot.t)) (p : Price.t) : outcome (list (Z * Slot.t)) :=
  i ← getitem token_indices (Price.token p);
  let array_idx := TokenIndex.array_idx i in
  i' ← getitem token_indices (Price.token p);
  let field_idx := TokenIndex.field_idx i' in
  let result :=
    if dict_mem array_idx result then result
    else dict_set array_idx fresh_slot result in
  match dict_get array_idx result with
  | None => Raise KeyError
  | Some v =>
      buy ← list_setitem (Slot.buy v) field_idx (Price.compact_buy p);
      sell ← list_setitem (Slot.sell v) field_idx (Price.compact_sell p);
      Ok (dict_set array_idx (Slot.mk buy sell) result)
  end.

Section CompactPrice.
(** [hexlify] comes from [reserve_sdk/utils.py]; it is applied to every
    14-element array and nothing else is known of it here. *)
Context {Hex : Type} (hexlify : list Z -> Hex).

Definition build_compact_price (prices : list Price.t)
    (token_indices : gmap string TokenIndex.t)
  : outcome (list Hex * list Hex * list Z) :=
  for_each (compact_price_step token_indices) [] prices
  ≫= fun result : list (Z * Slot.t) =>
  Ok ((fun kv => hexlify (Slot.buy (snd kv))) <$> result,
      (fun kv => hexlify (Slot.sell (snd kv))) <$> result,
      fst <$> result).
End CompactPrice.

(** *** What the batch is expected to contain *)

(** The distinct elements of a list, in order of first occurrence. *)
Fixpoint first_occurrences (l : list Z) : list Z :=
  match l with
  | [] => []
  | k :: l' => k :: filter (fun k' => k' ≠ k) (first_occurrences l')
  end.

(** The array index of each update, [None] for an unknown token. *)
Definition array_idx_of (token_indices : gmap string TokenIndex.t)
    (p : Price.t) : option Z :=
  TokenIndex.array_idx <$> token_indices !! Price.token p.

(** The byte at position [j] of array [k]: the value of the last update
    whose token sits at [(k, j)], and 0 when there is none. *)
Definition slot_value (sel : Price.t -> Z)
    (token_indices : gmap string TokenIndex.t) (prices : list Price.t)
    (k j : Z) : Z :=
  default 0
    (sel <$> last (filter
                     (fun p => token_indices !! Price.token p
                               = Some (TokenIndex.mk k j)) prices)).

Definition expected_array (sel : Price.t -> Z)
    (token_indices : gmap string TokenIndex.t) (prices : list Price.t)
    (k : Z) : list Z :=
  (fun j => slot_value sel token_indices prices k (Z.of_nat j)) <$> seq 0 14.

(** The array indices met in the updates and the dict they lead to. *)
Definition array_indices (token_indices : gmap string TokenIndex.t)
    (prices : list Price.t) : list Z :=
  omap (array_idx_of token_indices) prices.

Definition expected_slot (token_indices : gmap string TokenIndex.t)
    (prices : list Price.t) (k : Z) : Slot.t :=
  Slot.mk (expected_array Price.compact_buy token_indices prices k)
          (expected_array Price.compact_sell token_indices prices k).

Definition expected_batch (token_indices : gmap string TokenIndex.t)
    (prices : list Price.t) : list (Z * Slot.t) :=
  (fun k => (k, expected_slot token_indices prices k))
    <$> first_occurrences (array_indices token_indices prices).

(** Every update names a registered token whose field index is 0..13. *)
Definition indexed (token_indices : gmap string TokenIndex.t)
    (prices : list Price.t) : Prop :=
  Forall (fun p => exists i, token_indices !! Price.token p = Some i /\
                             0 <= TokenIndex.field_idx i < 14) prices.

(** The shape of a batch: no array index is repeated, every array is 14
    long, the buy values satisfy [Pb] and the sell values [Ps]. *)
Definition batch_shape (Pb Ps : Z -> Prop) (d : list (Z * Slot.t)) : Prop :=
  NoDup d.*1 /\
  Forall (fun kv => length (Slot.buy (snd kv)) = 14%nat /\
                    length (Slot.sell (snd kv)) = 14%nat /\
                    Forall Pb (Slot.buy (snd kv)) /\
                    Forall Ps (Slot.sell (snd kv))) d.

(** An update that the batch builder can place: its token is registered
    and its field index is one that a list of 14 accepts, -14..13. *)
Definition placeable (token_indices : gmap string TokenIndex.t)
    (p : Price.t) : Prop :=
  exists i, token_indices !! Price.token p = Some i /\
            -14 <= TokenIndex.field_idx i < 14.

(** The values a compact byte can take: 0..126 and 129..255. *)
Definition compact_byte (v : Z) : Prop := 0 <= v <= 126 \/ 129 <= v <= 255.

(** ** The conversion-rates contract *)

Section Contract.
(** [hexlify] and [call_contract] come from [reserve_sdk/utils.py]; the
    values returned by the chain are those of the node the client is
    connected to. *)
Context {Hex : Type}.

(** The two state-changing calls that [set_rates] can build. *)
Inductive tx :=
  | SetBaseRate (tokens : list string) (base_buy base_sell : list number)
      (compact_buy compact_sell : list Hex) (block : Z) (indices : list Z)
  | SetCompactData (compact_buy compact_sell : list Hex) (block : Z)
      (indices : list Z).

(** Every interaction with the chain, in the order it is made. *)
Inductive event :=
  | GetCompactData (token : string)
  | GetBasicRate (token : string) (buy : bool)
  | BlockNumber
  | Transact (t : tx).

(** A snapshot of the chain: what each read returns and what sending a
    transaction returns (its hash, or the error of the transport). *)
Record chain := {
  getCompactData : string -> outcome (Z * Z);
  getBasicRate : string -> bool -> outcome number;
  blockNumber : outcome Z;
  call_contract : tx -> outcome string
}.

(** The contract object: its cache of token indices, and the trace of
    what it has asked of the chain. *)
Record state := {
  token_indices : gmap string TokenIndex.t;
  log : list event
}.

Definition M (A : Type) : Type := state -> outcome A * state.

Definition ret {A} (a : A) : M A := fun s => (Ok a, s).

Definition bind {A B} (m : M A) (f : A -> M B) : M B :=
  fun s =>
    match m s with
    | (Ok a, s') => f a s'
    | (Raise e, s') => (Raise e, s')
    end.

Definition lift {A} (r : outcome A) : M A := fun s => (r, s).

Definition get_cache : M (gmap string TokenIndex.t) :=
  fun s => (Ok (token_indices s), s).

Definition set_cache (tok : string) (i : TokenIndex.t) : M unit :=
  fun s => (Ok tt, {| token_indices := <[tok := i]> (token_indices s);
                      log := log s |}).

(** A call to the chain is recorded whether it succeeds or not. *)
Definition chain_call {A} (e : event) (r : outcome A) : M A :=
  fun s => (r, {| token_indices := token_indices s; log := log s ++ [e] |}).

Fixpoint for_eachM {A B} (f : B -> A -> M B) (b : B) (l : list A) : M B :=
  match l with
  | [] => ret b
  | a :: l' => bind (f b a) (fun b' => for_eachM f b' l')
  end.

(** [executor.map(f, l)] followed by [list]: every task is submitted and
    run; the results are collected in input order and the first
    exception, in that order, is raised.  The reads of the chain are
    answered from one snapshot, so the results do not depend on how the
    pool interleaves the tasks.  The trace lists the reads task by task,
    which is one of the orders the pool can produce: what is stated of
    the reads of different tasks is stated up to their order. *)
Fixpoint run_tasks {A B} (f : A -> M B) (l : list A) (s : state)
  : list (outcome B) * state :=
  match l with
  | [] => ([], s)
  | a :: l' =>
      let '(r, s') := f a s in
      let '(rs, s'') := run_tasks f l' s' in
      (r :: rs, s'')
  end.

Fixpoint collect {B} (rs : list (outcome B)) : outcome (list B) :=
  match rs with
  | [] => Ok []
  | r :: rs' => b ← r; bs ← collect rs'; Ok (b :: bs)
  end.

Definition executor_map {A B} (f : A -> M B) (l : list A) : M (list B) :=
  fun s => let '(rs, s') := run_tasks f l s in (collect rs, s').

(** [zip(a, b, c)]: as long as the shortest of the three. *)
Fixpoint zip3 {A B C} (a : list A) (b : list B) (c : list C)
  : list (A * B * C) :=
  match a, b, c with
  | x :: a', y :: b', z :: c' => (x, y, z) :: zip3 a' b' c'
  | _, _, _ => []
  end.

#[local] Instance M_ret : MRet M := @ret.
#[local] Instance M_bind : MBind M := fun A B f m => bind m f.

Context (hexlify : list Z -> Hex) (c : chain).

Definition get_token_indices (token : string) : M TokenIndex.t :=
  cache ← get_cache;
  match cache !! token with
  | None =>
      r ← chain_call (GetCompactData token) (getCompactData c token);
      set_cache token (TokenIndex.mk (fst r) (snd r))
  | Some _ => ret tt
  end;;
  cache ← get_cache;
  lift (getitem cache token).

(** The body of the dict comprehension of [set_rates], lines 423-425. *)
Definition index_dict_step (d : gmap string TokenIndex.t) (token : string)
  : M (gmap string TokenIndex.t) :=
  i ← get_token_indices token; ret (<[token := i]> d).

Definition get_basic_rate (token_address : string) (buy : bool) : M number :=
  chain_call (GetBasicRate token_address buy)
    (getBasicRate c token_address buy).

Definition build_price (token : string) (buy sell : number) : M Price.t :=
  base_buy ← get_basic_rate token true;
  compact_buy ← lift (get_compact_data buy base_buy);
  base_sell ← get_basic_rate token false;
  compact_sell ← lift (get_compact_data sell base_sell);
  let base_changed :=
    py_ne (CompactData.base compact_buy) base_buy
    || py_ne (CompactData.base compact_sell) base_sell in
  ret (Price.mk token
         (CompactData.base compact_buy) (CompactData.base compact_sell)
         (CompactData.compact compact_buy) (CompactData.compact compact_sell)
         base_changed).

Definition call_contract_func (t : tx) : M string :=
  chain_call (Transact t) (call_contract c t).

Definition block_number : M Z := chain_call BlockNumber (blockNumber c).

Definition set_rates (token_addresses : list string)
    (buy_rates sell_rates : list number) : M string :=
  token_indices ← for_eachM index_dict_step ∅ token_addresses;
  prices ←
    executor_map (fun p => build_price (fst (fst p)) (snd (fst p)) (snd p))
      (zip3 token_addresses buy_rates sell_rates);
  let changed := List.filter Price.base_changed prices in
  let tokens := Price.token <$> changed in
  let base_buy := Price.base_buy <$> changed in
  let base_sell := Price.base_sell <$> changed in
  batch ← lift (build_compact_price hexlify prices token_indices);
  let compact_buy := fst (fst batch) in
  let compact_sell := snd (fst batch) in
  let indices := snd batch in
  match tokens with
  | _ :: _ =>
      block ← block_number;
      call_contract_func
        (SetBaseRate tokens base_buy base_sell compact_buy compact_sell
           block indices)
  | [] =>
      block ← block_number;
      call_contract_func (SetCompactData compact_buy compact_sell block indices)
  end.

(** *** What the reads of a call amount to

    The chain is a snapshot, so the index of a token and the price update
    of a (token, buy, sell) triple are functions of the chain and of the
    cache the call starts from. *)

Definition index_of (cache : gmap string TokenIndex.t) (tok : string)
  : outcome TokenIndex.t :=
  match cache !! tok with
  | Some i => Ok i
  | None => r ← getCompactData c tok; Ok (TokenIndex.mk (fst r) (snd r))
  end.

Definition price_of (p : string * number * number) : outcome Price.t :=
  let token := fst (fst p) in
  base_buy ← getBasicRate c token true;
  compact_buy ← get_compact_data (snd (fst p)) base_buy;
  base_sell ← getBasicRate c token false;
  compact_sell ← get_compact_data (snd p) base_sell;
  Ok (Price.mk token
        (CompactData.base compact_buy) (CompactData.base compact_sell)
        (CompactData.compact compact_buy) (CompactData.compact compact_sell)
        (py_ne (CompactData.base compact_buy) base_buy
         || py_ne (CompactData.base compact_sell) base_sell)).

Definition price_reads (p : string * number * number) : list event :=
  let token := fst (fst p) in
  GetBasicRate token true ::
  match getBasicRate c token true ≫= get_compact_data (snd (fst p)) with
  | Ok _ => [GetBasicRate token false]
  | Raise _ => []
  end.

(** A read recorded in the trace failed. *)
Definition failed_read (e : event) : bool :=
  match e with
  | GetCompactData tok => is_raise (getCompactData c tok)
  | GetBasicRate tok buy => is_raise (getBasicRate c tok buy)
  | BlockNumber | Transact _ => false
  end.

(** The transaction that [set_rates] builds from the price updates, the
    batch and the block number. *)
Definition rates_tx (prices : list Price.t)
    (batch : list Hex * list Hex * list Z) (block : Z) : tx :=
  let changed := List.filter Price.base_changed prices in
  if existsb Price.base_changed prices then
    SetBaseRate (Price.token <$> changed) (Price.base_buy <$> changed)
      (Price.base_sell <$> changed) (fst (fst batch)) (snd (fst batch))
      block (snd batch)
  else SetCompactData (fst (fst batch)) (snd (fst batch)) block (snd batch).

(** The events that are reads of token indices or of base rates. *)
Definition is_read (e : event) : bool :=
  match e with
  | GetCompactData _ | GetBasicRate _ _ => true
  | BlockNumber | Transact _ => false
  end.

(** A state whose trace has grown by [evs]. *)
Definition with_log (st : state) (evs : list event) : state :=
  {| token_indices := token_indices st; log := log st ++ evs |}.

(** The transactions sent in a trace. *)
Definition transactions (evs : list event) : list tx :=
  omap (fun e => match e with Transact t => Some t | _ => None end) evs.

End Contract.

Arguments tx Hex : clear implicits.
Arguments event Hex : clear implicits.
Arguments chain Hex : clear implicits.
Arguments state Hex : clear implicits.
Arguments M Hex A : clear implicits.

(** The compact batch and the array indices carried by a transaction. *)
Definition tx_compact_buy {Hex} (t : tx Hex) : list Hex :=
  match t with
  | SetBaseRate _ _ _ compact_buy _ _ _ => compact_buy
  | SetCompactData compact_buy _ _ _ => compact_buy
  end.

Definition tx_compact_sell {Hex} (t : tx Hex) : list Hex :=
  match t with
  | SetBaseRate _ _ _ _ compact_sell _ _ => compact_sell
  | SetCompactData _ compact_sell _ _ => compact_sell
  end.

Definition tx_indices {Hex} (t : tx Hex) : list Z :=
  match t with
  | SetBaseRate _ _ _ _ _ _ indices => indices
  | SetCompactData _ _ _ indices => indices
  end.

(** The two base-rate reads of one (token, buy, sell) triple. *)
Definition both_reads {Hex} (p : string * number * number)
  : list (event Hex) :=
  [GetBasicRate (fst (fst p)) true; GetBasicRate (fst (fst p)) false].

(** *** Input validation, as the specification describes it *)

Definition negative_or_nan (x : number) : bool :=
  match x with
  | PyInt z => z <? 0
  | PyFloat f => Float.is_nan f || Float.ltb f (S754_zero false)
  end.

Definition malformed (tokens : list string) (buys sells : list number) : Prop :=
  length buys ≠ length tokens \/ length sells ≠ length tokens \/
  Exists (fun x => negative_or_nan x = true) (buys ++ sells).

(** The run raised and asked nothing of the chain. *)
Definition rejected_before_chain {Hex A} (run : outcome A * state Hex)
    (st : state Hex) : Prop :=
  is_raise (fst run) = true /\ log (snd run) = log st.

(** *** The invariant of a price update, as the specification states it *)

Definition price_invariant_as_specified (p : Price.t)
    (buy sell base_buy base_sell : number) : Prop :=
  (Price.base_changed p = true <->
   could_not_fit buy base_buy = true \/ could_not_fit sell base_sell = true) /\
  (Price.base_changed p = true ->
   Price.base_buy p = buy /\ Price.base_sell p = sell /\
   Price.compact_buy p = 0 /\ Price.compact_sell p = 0) /\
  (Price.base_changed p = false ->
   Price.base_buy p = base_buy /\ Price.base_sell p = base_sell).

(** *** Sample data *)

Definition sample_chain : chain (list Z) := {|
  getCompactData tok :=
    if String.eqb tok "0xA" then Ok (0, 3)
    else if String.eqb tok "0xB" then Ok (0, 5)
    else if String.eqb tok "0xC" then Ok (7, 13)
    else Raise (ChainError 1);
  getBasicRate tok buy :=
    if String.eqb tok "0xC" then Raise (ChainError 2)
    else Ok (PyInt (if buy then 100 else 1000));
  blockNumber := Ok 42;
  call_contract _ := Ok "0xhash"%string
|}.

Definition fresh_state : state (list Z) := {| token_indices := ∅; log := [] |}.

(** A chain on which no base rate has been set yet. *)
Definition unset_chain : chain (list Z) := {|
  getCompactData tok := Ok (0, 0);
  getBasicRate tok buy := Ok (PyInt 0);
  blockNumber := Ok 42;
  call_contract _ := Ok "0xhash"%string
|}.

(** The trace of a call for the tokens 0xA, 0xC, 0xB on [sample_chain],
    where the base rate of 0xC cannot be read. *)
Definition sample_failed_trace : list (event (list Z)) :=
  [GetCompactData "0xA"; GetCompactData "0xC"; GetCompactData "0xB";
   GetBasicRate "0xA" true; GetBasicRate "0xA" false;
   GetBasicRate "0xC" true;
   GetBasicRate "0xB" true; GetBasicRate "0xB" false].


Definition sample_indices : gmap string TokenIndex.t :=
  <["0xA" := TokenIndex.mk 0 3]>
    (<["0xB" := TokenIndex.mk 0 5]> (<["0xC" := TokenIndex.mk 7 13]> ∅)).

Definition sample_price (tok : string) (buy sell : Z) : Price.t :=
  Price.mk tok (PyInt 100) (PyInt 100) buy sell false.

(** A triple whose rates are the integer base rates recorded on the
    chain. *)
Definition same_rates {Hex : Type} (c : chain Hex)
    (p : string * number * number) : Prop :=
  exists b s : Z,
    snd (fst p) = PyInt b /\ snd p = PyInt s /\
    getBasicRate c (fst (fst p)) true = Ok (PyInt b) /\
    getBasicRate c (fst (fst p)) false = Ok (PyInt s).

(** ** Listing a new token

    [add_new_token] sends three transactions, one after the other.  What
    the chain answers to a transaction may depend on those sent before it,
    so the sender is a function of the calls made so far; the state is
    that list of calls. *)

Module Onboarding.

Inductive pricing_call : Type :=
  | AddToken (token : string)
  | SetTokenControlInfo (token : string)
      (minimal_record_resolution max_per_block_imbalance
       max_total_imbalance : Z)
  | EnableTokenTrade (token : string).

Section Sender.
Context (send : list pricing_call -> pricing_call -> outcome string).

Definition M (A : Type) : Type :=
  list pricing_call -> outcome A * list pricing_call.

Definition bind {A B} (m : M A) (f : A -> M B) : M B :=
  fun sent =>
    match m sent with
    | (Ok a, sent') => f a sent'
    | (Raise e, sent') => (Raise e, sent')
    end.

Definition call_contract_func (f : pricing_call) : M string :=
  fun sent => (send sent f, sent ++ [f]).

Definition add_token (token : string) : M string :=
  call_contract_func (AddToken token).

Definition set_token_control_info (token : string)
    (minimal_record_resolution max_per_block_imbalance
     max_total_imbalance : Z) : M string :=
  call_contract_func
    (SetTokenControlInfo token minimal_record_resolution
       max_per_block_imbalance max_total_imbalance).

Definition enable_token_trade (token : string) : M string :=
  call_contract_func (EnableTokenTrade token).

Definition add_new_token (token : string)
    (minimal_record_resolution max_per_block_imbalance
     max_total_imbalance : Z) : M unit :=
  bind (add_token token) (fun _ =>
  bind (set_token_control_info token minimal_record_resolution
          max_per_block_imbalance max_total_imbalance) (fun _ =>
  bind (enable_token_trade token) (fun _ =>
  fun sent => (Ok tt, sent)))).

End Sender.

(** The three transactions of [add_new_token], in the order of the code. *)
Definition steps (token : string)
    (minimal_record_resolution max_per_block_imbalance
     max_total_imbalance : Z) : list pricing_call :=
  [AddToken token;
   SetTokenControlInfo token minimal_record_resolution
     max_per_block_imbalance max_total_imbalance;
   EnableTokenTrade token].

End Onboarding.

(** * Properties *)

(** ** Arithmetic of the model *)

Lemma bind_ok {A B} (r : outcome A) (f : A -> outcome B) (b : B) :
  r ≫= f = Ok b -> exists a, r = Ok a /\ f a = Ok b.
Proof. destruct r as [a|e]; [eauto | discriminate]. Qed.

Lemma bind_raise {A B} (r : outcome A) (f : A -> outcome B) (e : exn) :
  r ≫= f = Raise e ->
  r = Raise e \/ exists a, r = Ok a /\ f a = Raise e.
Proof. destruct r as [a|e']; [eauto | intros [= ->]; auto]. Qed.

Lemma den_pos f : 0 < Float.den f.
Proof. destruct f; simpl; try lia. Qed.

Lemma trunc_quot f z : Float.trunc f = Some z -> z = Z.quot (Float.num f) (Float.den f).
Proof.
  destruct f as [s|s| |s m e]; simpl; try discriminate.
  - intros [= <-]. reflexivity.
  - intros [= <-]. destruct (Z.leb_spec 0 e) as [He|He].
    + rewrite Z.max_l, Z.max_r by lia. rewrite Z.quot_1_r. reflexivity.
    + rewrite Z.max_r, Z.max_l by lia. rewrite Z.mul_1_r.
      assert (Hd : 0 < 2 ^ (- e)) by (apply Z.pow_pos_nonneg; lia).
      destruct s; simpl.
      * change (Z.neg m) with (- Z.pos m).
        rewrite Z.quot_opp_l by lia.
        rewrite Z.quot_div_nonneg by lia. reflexivity.
      * rewrite Z.quot_div_nonneg by lia. reflexivity.
Qed.

Lemma floor_div f z : Float.floor f = Some z -> z = Float.num f / Float.den f.
Proof.
  destruct f as [s|s| |s m e]; simpl; try discriminate.
  - intros [= <-]. reflexivity.
  - intros [= <-]. destruct (Z.leb_spec 0 e) as [He|He].
    + rewrite Z.max_l, Z.max_r by lia. rewrite Z.div_1_r. reflexivity.
    + rewrite Z.max_r, Z.max_l by lia. rewrite Z.mul_1_r. reflexivity.
Qed.

Lemma trunc_opp f z :
  Float.trunc f = Some z -> Float.trunc (SFopp f) = Some (- z).
Proof.
  destruct f as [s|s| |s m e]; simpl; try discriminate.
  - intros [= <-]. reflexivity.
  - intros [= <-]. f_equal. destruct s; simpl; lia.
Qed.

Lemma py_int_trunc f z : py_int f = Ok z <-> Float.trunc f = Some z.
Proof.
  destruct f as [s|s| |s m e]; simpl; split; intros H;
    try discriminate; congruence.
Qed.

Lemma pos_nonzero x : py_pos x = true -> py_eq x (PyInt 0) = false.
Proof.
  destruct x as [a|f]; unfold py_pos, py_eq.
  - intros H. apply Z.ltb_lt in H. apply Z.eqb_neq. lia.
  - destruct f as [s|s| |s m e]; try discriminate; try reflexivity.
    destruct s; [discriminate|]. intros _.
    unfold Float.eqb_Z, cond_Zopp.
    destruct (Z.leb_spec 0 e) as [He|He]; apply Z.eqb_neq.
    + pose proof (Z.pow_pos_nonneg 2 e). lia.
    + lia.
Qed.

(** ** The branches of [get_compact_data] *)


Lemma get_compact_data_delta rate base d :
  py_eq base (PyInt 0) = false ->
  delta_bps rate base = Ok d ->
  get_compact_data rate base =
    if (d <=? -128) || (127 <=? d) then Ok (CompactData.mk rate 0)
    else Ok (CompactData.mk base (if d <? 0 then d + 256 else d)).
Proof.
  intros Hb Hd. unfold get_compact_data. rewrite Hb, Hd. reflexivity.
Qed.

Lemma get_compact_data_raises rate base e :
  get_compact_data rate base = Raise e ->
  py_eq base (PyInt 0) = false /\ delta_bps rate base = Raise e.
Proof.
  unfold get_compact_data. destruct (py_eq base (PyInt 0)); [discriminate|].
  destruct (delta_bps rate base) as [d|e']; simpl.
  - destruct ((d <=? -128) || (127 <=? d)); discriminate.
  - intros [= ->]. split; reflexivity.
Qed.

Lemma decode_encode d :
  -128 < d < 127 -> decode_compact (if d <? 0 then d + 256 else d) = d.
Proof.
  intros Hd. unfold decode_compact.
  destruct (Z.ltb_spec d 0); destruct (Z.ltb_spec 127 (d + 256));
    destruct (Z.ltb_spec 127 d); lia.
Qed.

(** C1: for positive [rate] and [base] whose computed delta lies strictly
    between -128 and 127, [get_compact_data] keeps [base] and returns the
    delta as an unsigned byte (the delta itself when non-negative, the
    delta plus 256 when negative); decoding the byte gives the delta back. *)
Theorem get_compact_data_fits (rate base : number) (d : Z) :
  py_pos rate = true ->
  py_pos base = true ->
  delta_bps rate base = Ok d ->
  -128 < d < 127 ->
  exists r,
    get_compact_data rate base = Ok r /\
    CompactData.base r = base /\
    CompactData.compact r = (if d <? 0 then d + 256 else d) /\
    decode_compact (CompactData.compact r) = d.
Proof.
  intros _ Hb Hd Hr.
  rewrite (get_compact_data_delta _ _ _ (pos_nonzero _ Hb) Hd).
  destruct (Z.leb_spec d (-128)); [lia|].
  destruct (Z.leb_spec 127 d); [lia|]. simpl.
  eexists. split; [reflexivity|]. simpl.
  split; [reflexivity|]. split; [reflexivity|]. apply decode_encode. lia.
Qed.

Lemma get_compact_data_fits_witness :
  exists r,
    get_compact_data (PyFloat (float_literal 987 1)) (PyInt 100) = Ok r /\
    CompactData.base r = PyInt 100 /\
    CompactData.compact r = 243 /\
    decode_compact (CompactData.compact r) = -13.
Proof.
  apply (get_compact_data_fits (PyFloat (float_literal 987 1)) (PyInt 100) (-13));
    [reflexivity | reflexivity | vm_compute; reflexivity | lia].
Defined.

(** C2: with a non-zero [base], a computed delta at or below -128, or at
    or above 127, makes [get_compact_data] return the new rate as base
    with compact 0; the deltas that are kept are exactly -127..126. *)
Theorem get_compact_data_reset (rate base : number) (d : Z) :
  py_eq base (PyInt 0) = false ->
  delta_bps rate base = Ok d ->
  (d <= -128 \/ 127 <= d ->
   get_compact_data rate base = Ok (CompactData.mk rate 0)) /\
  (-127 <= d <= 126 ->
   get_compact_data rate base =
     Ok (CompactData.mk base (if d <? 0 then d + 256 else d))).
Proof.
  intros Hb Hd. rewrite (get_compact_data_delta _ _ _ Hb Hd).
  split; intros Hr.
  - destruct (Z.leb_spec d (-128)); [reflexivity|].
    destruct (Z.leb_spec 127 d); [reflexivity|]. lia.
  - destruct (Z.leb_spec d (-128)); [lia|].
    destruct (Z.leb_spec 127 d); [lia|]. reflexivity.
Qed.

Lemma get_compact_data_reset_witness :
  delta_bps (PyInt 872) (PyInt 1000) = Ok (-128) /\
  get_compact_data (PyInt 872) (PyInt 1000) = Ok (CompactData.mk (PyInt 872) 0) /\
  delta_bps (PyInt 1127) (PyInt 1000) = Ok 127 /\
  get_compact_data (PyInt 1127) (PyInt 1000) = Ok (CompactData.mk (PyInt 1127) 0).
Proof.
  assert (H1 : delta_bps (PyInt 872) (PyInt 1000) = Ok (-128))
    by (vm_compute; reflexivity).
  assert (H2 : delta_bps (PyInt 1127) (PyInt 1000) = Ok 127)
    by (vm_compute; reflexivity).
  split; [exact H1|]. split; [|split; [exact H2|]].
  - apply (get_compact_data_reset (PyInt 872) (PyInt 1000) (-128));
      [reflexivity | exact H1 | lia].
  - apply (get_compact_data_reset (PyInt 1127) (PyInt 1000) 127);
      [reflexivity | exact H2 | lia].
Defined.

(** C3: with a zero [base], [get_compact_data] returns the rate as base
    and compact 0, for every rate (the zero may be the integer 0 or a
    float zero of either sign). *)
Theorem get_compact_data_no_base (rate : number) :
  get_compact_data rate (PyInt 0) = Ok (CompactData.mk rate 0) /\
  forall s, get_compact_data rate (PyFloat (S754_zero s)) =
            Ok (CompactData.mk rate 0).
Proof. split; [|intros s]; reflexivity. Qed.

(** C10: whenever [get_compact_data] returns, the compact field is a byte,
    0..255, and it is never 127 or 128: it lies in 0..126 or 129..255. *)
Theorem get_compact_data_byte (rate base : number) (r : CompactData.t) :
  get_compact_data rate base = Ok r ->
  0 <= CompactData.compact r <= 255 /\
  CompactData.compact r <> 127 /\
  CompactData.compact r <> 128 /\
  (0 <= CompactData.compact r <= 126 \/ 129 <= CompactData.compact r <= 255).
Proof.
  unfold get_compact_data.
  destruct (py_eq base (PyInt 0)).
  - intros [= <-]. simpl. lia.
  - destruct (delta_bps rate base) as [d|e]; simpl; [|discriminate].
    destruct (Z.leb_spec d (-128)); simpl.
    + intros [= <-]. simpl. lia.
    + destruct (Z.leb_spec 127 d); simpl; intros [= <-]; simpl; [lia|].
      destruct (Z.ltb_spec d 0); lia.
Qed.

Lemma get_compact_data_byte_witness :
  0 <= 243 <= 255 /\ 243 <> 127 /\ 243 <> 128 /\
  (0 <= 243 <= 126 \/ 129 <= 243 <= 255).
Proof.
  apply (get_compact_data_byte (PyFloat (float_literal 987 1)) (PyInt 100)
           (CompactData.mk (PyInt 100) 243)).
  vm_compute. reflexivity.
Defined.

(** C9: the delta is the integer part of the float [(rate/base - 1) * 1000]
    rounded toward zero (the quotient [Z.quot] of its exact value), which
    for a negative fraction differs from the floor: -13.7 becomes -13, and
    [get_compact_data(98.7, 100)] has delta -13 and returns (100, 243). *)
Theorem delta_truncates_toward_zero :
  (forall rate base d,
     delta_bps rate base = Ok d ->
     exists q e p,
       py_truediv rate base = Ok q /\
       float_sub_int q 1 = Ok e /\
       float_mul_int e 1000 = Ok p /\
       d = Z.quot (Float.num p) (Float.den p)) /\
  py_int (float_literal (-137) 1) = Ok (-13) /\
  Float.floor (float_literal (-137) 1) = Some (-14) /\
  delta_bps (PyFloat (float_literal 987 1)) (PyInt 100) = Ok (-13) /\
  (exists p,
     float_mul_int
       (Float.sub (Float.div (float_literal 987 1) (Float.of_Z 100))
          (Float.of_Z 1)) 1000 = Ok p /\
     Float.trunc p = Some (-13) /\ Float.floor p = Some (-14)) /\
  get_compact_data (PyFloat (float_literal 987 1)) (PyInt 100) =
    Ok (CompactData.mk (PyInt 100) 243).
Proof.
  split; [|split; [|split; [|split; [|split]]]].
  - intros rate base d. unfold delta_bps. intros H.
    apply bind_ok in H as (q & Hq & H).
    apply bind_ok in H as (e & He & H).
    apply bind_ok in H as (p & Hp & H).
    exists q, e, p.
    split; [exact Hq|]. split; [exact He|]. split; [exact Hp|].
    apply trunc_quot, py_int_trunc, H.
  - vm_compute. reflexivity.
  - vm_compute. reflexivity.
  - vm_compute. reflexivity.
  - eexists. split; [vm_compute; reflexivity|].
    split; vm_compute; reflexivity.
  - vm_compute. reflexivity.
Qed.

Lemma delta_truncates_toward_zero_witness :
  exists q e p,
    py_truediv (PyFloat (float_literal 987 1)) (PyInt 100) = Ok q /\
    float_sub_int q 1 = Ok e /\
    float_mul_int e 1000 = Ok p /\
    -13 = Z.quot (Float.num p) (Float.den p).
Proof.
  apply (proj1 delta_truncates_toward_zero
           (PyFloat (float_literal 987 1)) (PyInt 100) (-13)).
  vm_compute. reflexivity.
Defined.

(** ** The compact batch *)

Lemma for_each_app {A B} (f : B -> A -> outcome B) (b : B) (l1 l2 : list A) :
  for_each f b (l1 ++ l2) = for_each f b l1 ≫= fun b' => for_each f b' l2.
Proof.
  revert b. induction l1 as [|a l1 IH]; intros b; simpl; [reflexivity|].
  destruct (f b a) as [b'|e]; simpl; [apply IH | reflexivity].
Qed.

Lemma first_occurrences_elem (l : list Z) (k : Z) :
  k ∈ first_occurrences l <-> k ∈ l.
Proof.
  induction l as [|a l IH]; simpl; [reflexivity|].
  rewrite !elem_of_cons, list_elem_of_filter, IH.
  destruct (decide (k = a)); tauto.
Qed.

Lemma first_occurrences_NoDup (l : list Z) : NoDup (first_occurrences l).
Proof.
  induction l as [|a l IH]; simpl; constructor.
  - rewrite list_elem_of_filter. tauto.
  - apply NoDup_filter, IH.
Qed.

Lemma first_occurrences_snoc (l : list Z) (k : Z) :
  first_occurrences (l ++ [k]) =
    if decide (k ∈ l) then first_occurrences l else first_occurrences l ++ [k].
Proof.
  induction l as [|a l IH].
  - case_decide as H; [by apply elem_of_nil in H | reflexivity].
  - change (first_occurrences ((a :: l) ++ [k]))
      with (a :: filter (fun k' => k' ≠ a) (first_occurrences (l ++ [k]))).
    rewrite IH. cbn [first_occurrences].
    destruct (decide (k = a)) as [->|Hne].
    + rewrite (decide_True (P := a ∈ a :: l)) by apply list_elem_of_here.
      case_decide; [reflexivity|].
      rewrite filter_app, filter_cons_False, filter_nil, app_nil_r by tauto.
      reflexivity.
    + destruct (decide (k ∈ l)) as [Hin|Hin].
      * rewrite decide_True by (apply elem_of_cons; auto). reflexivity.
      * rewrite decide_False by (rewrite elem_of_cons; tauto).
        rewrite filter_app, filter_cons_True, filter_nil by exact Hne.
        reflexivity.
Qed.

Section Dict.
Context {V : Type} (g : Z -> V).

Lemma dict_get_fmap (k : Z) (ks : list Z) :
  dict_get k ((fun k' => (k', g k')) <$> ks) =
    if decide (k ∈ ks) then Some (g k) else None.
Proof.
  induction ks as [|a ks IH].
  - case_decide as H; [by apply elem_of_nil in H | reflexivity].
  - rewrite fmap_cons. cbn [dict_get]. destruct (Z.eqb_spec a k) as [->|Hne].
    + rewrite decide_True by apply list_elem_of_here. reflexivity.
    + rewrite IH. destruct (decide (k ∈ ks)) as [Hin|Hin].
      * rewrite decide_True by (apply elem_of_cons; auto). reflexivity.
      * rewrite decide_False; [reflexivity|].
        rewrite elem_of_cons. intros [?|?]; congruence.
Qed.

Lemma dict_set_fmap_new (k : Z) (v : V) (ks : list Z) :
  k ∉ ks ->
  dict_set k v ((fun k' => (k', g k')) <$> ks) =
    ((fun k' => (k', g k')) <$> ks) ++ [(k, v)].
Proof.
  induction ks as [|a ks IH]; [reflexivity|].
  rewrite not_elem_of_cons. intros [Hne Hin].
  rewrite fmap_cons. cbn [dict_set].
  destruct (Z.eqb_spec a k); [congruence|]. rewrite IH by exact Hin.
  reflexivity.
Qed.

Lemma dict_set_fmap_old (k : Z) (v : V) (ks : list Z) :
  NoDup ks -> k ∈ ks ->
  dict_set k v ((fun k' => (k', g k')) <$> ks) =
    (fun k' => (k', if decide (k' = k) then v else g k')) <$> ks.
Proof.
  induction 1 as [|a ks Ha Hnd IH].
  - intros H. apply elem_of_nil in H. contradiction.
  - intros Hin. rewrite !fmap_cons. cbn [dict_set].
    destruct (Z.eqb_spec a k) as [->|Hne].
    + rewrite decide_True by reflexivity. f_equal.
      apply list_fmap_ext. intros i k' Hk'.
      rewrite decide_False; [reflexivity|].
      intros ->. apply Ha. eapply list_elem_of_lookup_2, Hk'.
    + rewrite decide_False by exact Hne. f_equal. apply IH.
      apply elem_of_cons in Hin as [?|?]; [congruence | assumption].
Qed.
End Dict.

Section Batch.
Context (ti : gmap string TokenIndex.t).

Lemma slot_value_snoc sel ps p k j :
  slot_value sel ti (ps ++ [p]) k j =
    if decide (ti !! Price.token p = Some (TokenIndex.mk k j)) then sel p
    else slot_value sel ti ps k j.
Proof.
  unfold slot_value. rewrite filter_app. case_decide as Hp.
  - rewrite filter_cons_True, filter_nil, last_snoc by exact Hp. reflexivity.
  - rewrite filter_cons_False, filter_nil, app_nil_r by exact Hp. reflexivity.
Qed.

Lemma array_indices_snoc ps p i :
  ti !! Price.token p = Some i ->
  array_indices ti (ps ++ [p]) = array_indices ti ps ++ [TokenIndex.array_idx i].
Proof.
  intros Hp. unfold array_indices. rewrite omap_app. f_equal.
  cbn [omap list_omap]. unfold array_idx_of. rewrite Hp. reflexivity.
Qed.

Lemma slot_value_unused sel ps k j :
  k ∉ array_indices ti ps -> slot_value sel ti ps k j = 0.
Proof.
  induction ps as [|p ps IH] using rev_ind; [reflexivity|].
  intros Hk. rewrite slot_value_snoc. case_decide as Hp.
  - exfalso. apply Hk. rewrite (array_indices_snoc _ _ _ Hp).
    apply elem_of_app. right. apply list_elem_of_singleton. reflexivity.
  - apply IH. intros Hin. apply Hk. unfold array_indices.
    rewrite omap_app. apply elem_of_app. left. exact Hin.
Qed.

Lemma expected_array_length sel ps k :
  length (expected_array sel ti ps k) = 14%nat.
Proof. reflexivity. Qed.

Lemma expected_array_lookup sel ps k (n : nat) :
  (n < 14)%nat ->
  expected_array sel ti ps k !! n = Some (slot_value sel ti ps k (Z.of_nat n)).
Proof.
  intros Hn. unfold expected_array.
  rewrite list_lookup_fmap, lookup_seq_lt by exact Hn. reflexivity.
Qed.

Lemma expected_array_insert sel ps p k j :
  ti !! Price.token p = Some (TokenIndex.mk k j) ->
  0 <= j < 14 ->
  <[Z.to_nat j := sel p]> (expected_array sel ti ps k) =
    expected_array sel ti (ps ++ [p]) k.
Proof.
  intros Hp Hj. apply list_eq. intros n.
  destruct (decide (n < 14)%nat) as [Hn|Hn].
  - rewrite (expected_array_lookup _ _ _ _ Hn), slot_value_snoc.
    destruct (decide (n = Z.to_nat j)) as [->|Hne].
    + rewrite list_lookup_insert_eq by (rewrite expected_array_length; lia).
      rewrite Z2Nat.id by lia. rewrite decide_True by exact Hp. reflexivity.
    + rewrite list_lookup_insert_ne by congruence.
      rewrite decide_False by (rewrite Hp; intros [= E]; lia).
      apply expected_array_lookup, Hn.
  - rewrite !lookup_ge_None_2; [reflexivity | |];
      rewrite ?length_insert, expected_array_length; lia.
Qed.

Lemma expected_array_other sel ps p k j k' :
  ti !! Price.token p = Some (TokenIndex.mk k j) ->
  k' ≠ k ->
  expected_array sel ti (ps ++ [p]) k' = expected_array sel ti ps k'.
Proof.
  intros Hp Hk. unfold expected_array. apply list_fmap_ext. intros _ n _.
  rewrite slot_value_snoc, decide_False; [reflexivity|].
  rewrite Hp. intros [= E _]. congruence.
Qed.

Lemma expected_array_fresh sel ps k :
  k ∉ array_indices ti ps -> expected_array sel ti ps k = replicate 14 0.
Proof.
  intros Hk. unfold expected_array.
  transitivity ((fun _ : nat => 0) <$> seq 0 14); [|reflexivity].
  apply list_fmap_ext. intros _ n _. apply slot_value_unused, Hk.
Qed.

Lemma list_setitem_in_range (l : list Z) (i v : Z) :
  0 <= i < Z.of_nat (length l) ->
  list_setitem l i v = Ok (<[Z.to_nat i := v]> l).
Proof.
  intros Hi. unfold list_setitem.
  destruct (Z.leb_spec 0 i); [|lia].
  destruct (Z.ltb_spec i (Z.of_nat (length l))); [reflexivity | lia].
Qed.

Lemma compact_price_step_ok ps p k j :
  ti !! Price.token p = Some (TokenIndex.mk k j) ->
  0 <= j < 14 ->
  compact_price_step ti (expected_batch ti ps) p =
    Ok (expected_batch ti (ps ++ [p])).
Proof.
  intros Hp Hj. unfold compact_price_step, getitem. rewrite Hp.
  cbn [mbind outcome_bind TokenIndex.array_idx TokenIndex.field_idx].
  pose proof (first_occurrences_NoDup (array_indices ti (ps ++ [p]))) as Hnd.
  assert (Hin : k ∈ first_occurrences (array_indices ti (ps ++ [p]))).
  { rewrite first_occurrences_elem, (array_indices_snoc _ _ _ Hp).
    apply elem_of_app. right. apply list_elem_of_singleton. reflexivity. }
  assert (Hres :
    (if dict_mem k (expected_batch ti ps) then expected_batch ti ps
     else dict_set k fresh_slot (expected_batch ti ps)) =
    (fun k' => (k', expected_slot ti ps k'))
      <$> first_occurrences (array_indices ti (ps ++ [p]))).
  { rewrite (array_indices_snoc _ _ _ Hp), first_occurrences_snoc.
    cbn [TokenIndex.array_idx].
    unfold dict_mem, expected_batch. rewrite dict_get_fmap.
    destruct (decide (k ∈ array_indices ti ps)) as [Hk|Hk].
    - rewrite decide_True by (apply first_occurrences_elem, Hk). reflexivity.
    - rewrite decide_False by (rewrite first_occurrences_elem; exact Hk).
      rewrite dict_set_fmap_new by (rewrite first_occurrences_elem; exact Hk).
      rewrite fmap_app. f_equal. cbn [fmap list_fmap]. unfold expected_slot.
      rewrite !expected_array_fresh by exact Hk. reflexivity. }
  rewrite Hres, dict_get_fmap, decide_True by exact Hin.
  change (Slot.buy (expected_slot ti ps k))
    with (expected_array Price.compact_buy ti ps k).
  change (Slot.sell (expected_slot ti ps k))
    with (expected_array Price.compact_sell ti ps k).
  rewrite !list_setitem_in_range by (rewrite expected_array_length; lia).
  cbn [mbind outcome_bind]. f_equal.
  rewrite !(expected_array_insert _ _ _ _ _ Hp Hj).
  rewrite dict_set_fmap_old by assumption.
  unfold expected_batch. apply list_fmap_ext. intros _ k' _.
  case_decide as Hk'; [subst k'; reflexivity|].
  unfold expected_slot.
  rewrite !(expected_array_other _ _ _ _ _ _ Hp Hk'). reflexivity.
Qed.

Lemma for_each_compact_price_step ps :
  indexed ti ps ->
  for_each (compact_price_step ti) [] ps = Ok (expected_batch ti ps).
Proof.
  induction ps as [|p ps IH] using rev_ind; [reflexivity|].
  intros Hall. apply Forall_app in Hall as [Hps Hp].
  apply Forall_singleton in Hp as ([k j] & Hp & Hj).
  rewrite for_each_app, (IH Hps). cbn [mbind outcome_bind for_each].
  rewrite (compact_price_step_ok _ _ _ _ Hp Hj). reflexivity.
Qed.
End Batch.

(** C5: [build_compact_price] returns one entry per distinct array index,
    in order of first occurrence among the updates; the entry of index
    [k] is the hexlified 14-element buy array and sell array whose
    position [j] holds the compact value of the (last) update whose token
    sits at [(k, j)] and 0 where there is none; the three returned lists
    have the same length.  Two updates at array index 0, fields 3 and 5,
    give the single index 0 with positions 3 and 5 set. *)
Theorem build_compact_price_groups {Hex : Type} (hexlify : list Z -> Hex)
    (token_indices : gmap string TokenIndex.t) :
  (forall prices,
     indexed token_indices prices ->
     exists buy sell indices,
       build_compact_price hexlify prices token_indices
         = Ok (buy, sell, indices) /\
       indices = first_occurrences (array_indices token_indices prices) /\
       NoDup indices /\
       buy = (fun k => hexlify (expected_array Price.compact_buy
                                  token_indices prices k)) <$> indices /\
       sell = (fun k => hexlify (expected_array Price.compact_sell
                                   token_indices prices k)) <$> indices /\
       (forall sel k,
          length (expected_array sel token_indices prices k) = 14%nat) /\
       length buy = length indices /\
       length sell = length indices) /\
  (forall p1 p2,
     token_indices !! Price.token p1 = Some (TokenIndex.mk 0 3) ->
     token_indices !! Price.token p2 = Some (TokenIndex.mk 0 5) ->
     build_compact_price hexlify [p1; p2] token_indices =
       Ok ([hexlify [0; 0; 0; Price.compact_buy p1; 0; Price.compact_buy p2;
                     0; 0; 0; 0; 0; 0; 0; 0]],
           [hexlify [0; 0; 0; Price.compact_sell p1; 0; Price.compact_sell p2;
                     0; 0; 0; 0; 0; 0; 0; 0]],
           [0])).
Proof.
  split.
  - intros prices Hidx. unfold build_compact_price.
    rewrite (for_each_compact_price_step _ _ Hidx).
    cbn [mbind outcome_bind]. unfold expected_batch.
    rewrite <- !list_fmap_compose.
    set (ks := first_occurrences (array_indices token_indices prices)).
    replace (fst ∘ (fun k => (k, expected_slot token_indices prices k)) <$> ks)
      with ks by (symmetry; apply list_fmap_id).
    eexists _, _, ks. split; [reflexivity|].
    split; [reflexivity|].
    split; [apply first_occurrences_NoDup|].
    split; [reflexivity|]. split; [reflexivity|].
    split; [intros; apply expected_array_length|].
    rewrite !length_fmap. split; reflexivity.
  - intros p1 p2 H1 H2. unfold build_compact_price.
    cbn [for_each]. unfold compact_price_step, getitem.
    rewrite H1, H2. reflexivity.
Qed.

Lemma build_compact_price_groups_witness :
  build_compact_price (fun l => l)
    [sample_price "0xC" 1 2; sample_price "0xA" 50 243;
     sample_price "0xB" 9 10; sample_price "0xA" 51 244] sample_indices =
  Ok ([[0; 0; 0; 0; 0; 0; 0; 0; 0; 0; 0; 0; 0; 1];
       [0; 0; 0; 51; 0; 9; 0; 0; 0; 0; 0; 0; 0; 0]],
      [[0; 0; 0; 0; 0; 0; 0; 0; 0; 0; 0; 0; 0; 2];
       [0; 0; 0; 244; 0; 10; 0; 0; 0; 0; 0; 0; 0; 0]],
      [7; 0]).
Proof.
  destruct (proj1 (build_compact_price_groups (fun l => l) sample_indices)
              [sample_price "0xC" 1 2; sample_price "0xA" 50 243;
               sample_price "0xB" 9 10; sample_price "0xA" 51 244])
    as (buy & sell & indices & Heq & Hi & _ & Hb & Hs & _).
  - unfold indexed.
    repeat (apply Forall_cons_2;
            [eexists; split; [vm_compute; reflexivity | cbn; lia] |]).
    apply Forall_nil_2.
  - rewrite Heq, Hb, Hs, Hi. vm_compute. reflexivity.
Defined.

(** ** Runs of the contract methods *)

Section ContractFacts.
Context {Hex : Type} (hexlify : list Z -> Hex) (c : chain Hex).

Lemma with_log_nil (st : state Hex) : with_log st [] = st.
Proof. destruct st. unfold with_log. simpl. rewrite app_nil_r. reflexivity. Qed.

Lemma with_log_app (st : state Hex) evs1 evs2 :
  with_log (with_log st evs1) evs2 = with_log st (evs1 ++ evs2).
Proof. unfold with_log. simpl. rewrite app_assoc. reflexivity. Qed.

Lemma get_token_indices_run tok st :
  get_token_indices c tok st =
    match token_indices st !! tok with
    | Some i => (Ok i, st)
    | None =>
        match getCompactData c tok with
        | Ok r =>
            (Ok (TokenIndex.mk (fst r) (snd r)),
             {| token_indices :=
                  <[tok := TokenIndex.mk (fst r) (snd r)]> (token_indices st);
                log := log st ++ [GetCompactData tok] |})
        | Raise e => (Raise e, with_log st [GetCompactData tok])
        end
    end.
Proof.
  unfold get_token_indices, mbind, M_bind, bind, get_cache, chain_call,
    set_cache, lift, getitem, ret.
  destruct st as [cache lg]. cbn [token_indices log].
  destruct (cache !! tok) as [i|] eqn:E.
  - cbn [token_indices]. rewrite E. reflexivity.
  - destruct (getCompactData c tok) as [r|e]; cbn [token_indices log].
    + rewrite lookup_insert_eq. reflexivity.
    + reflexivity.
Qed.

Lemma build_price_run tok buy sell st :
  build_price c tok buy sell st =
    (price_of c (tok, buy, sell), with_log st (price_reads c (tok, buy, sell))).
Proof.
  unfold build_price, price_of, price_reads, mbind, M_bind, bind,
    get_basic_rate, chain_call, lift, ret, with_log.
  cbn [fst snd token_indices log].
  destruct (getBasicRate c tok true) as [bb|e]; cbn; [|reflexivity].
  destruct (get_compact_data buy bb) as [cb|e]; cbn; [|reflexivity].
  rewrite <- app_assoc. cbn [app].
  destruct (getBasicRate c tok false) as [bs|e]; cbn; [|reflexivity].
  destruct (get_compact_data sell bs) as [cs|e]; cbn; reflexivity.
Qed.

Lemma run_tasks_build_price (l : list (string * number * number)) st :
  run_tasks (fun p => build_price c (fst (fst p)) (snd (fst p)) (snd p)) l st =
    (price_of c <$> l, with_log st (mjoin (price_reads c <$> l))).
Proof.
  revert st. induction l as [|[[tok buy] sell] l IH]; intros st.
  - cbn. rewrite with_log_nil. reflexivity.
  - cbn [run_tasks fst snd]. rewrite build_price_run, IH, with_log_app.
    reflexivity.
Qed.
End ContractFacts.

Section SetRatesFacts.
Context {Hex : Type} (hexlify : list Z -> Hex) (c : chain Hex).

Lemma index_of_insert cache tok r tok' :
  cache !! tok = None ->
  getCompactData c tok = Ok r ->
  index_of c (<[tok := TokenIndex.mk (fst r) (snd r)]> cache) tok' =
    index_of c cache tok'.
Proof.
  intros Hnone Hr. unfold index_of. destruct (decide (tok = tok')) as [<-|Hne].
  - rewrite lookup_insert_eq, Hnone, Hr. reflexivity.
  - rewrite lookup_insert_ne by exact Hne. reflexivity.
Qed.

Lemma index_dict_step_run d tok st :
  index_dict_step c d tok st =
    match get_token_indices c tok st with
    | (Ok i, st') => (Ok (<[tok := i]> d), st')
    | (Raise e, st') => (Raise e, st')
    end.
Proof. reflexivity. Qed.

(** The dict comprehension: what it asks of the chain and what it builds. *)
Lemma index_phase tokens : forall d st r st',
  for_eachM (index_dict_step c) d tokens st = (r, st') ->
  exists evs,
    log st' = log st ++ evs /\
    (forall tok, index_of c (token_indices st') tok
                 = index_of c (token_indices st) tok) /\
    (forall e, e ∈ evs -> exists tok, e = GetCompactData tok /\ tok ∈ tokens) /\
    match r with
    | Ok ti =>
        (forall e, e ∈ evs -> failed_read c e = false) /\
        (forall tok, tok ∈ tokens ->
           exists i, ti !! tok = Some i /\
                     index_of c (token_indices st) tok = Ok i) /\
        (forall tok, tok ∉ tokens -> ti !! tok = d !! tok)
    | Raise e =>
        exists evs' tok, evs = evs' ++ [GetCompactData tok] /\
                         getCompactData c tok = Raise e
    end.
Proof.
  induction tokens as [|t ts IH]; intros d st r st'.
  - intros [= <- <-]. exists []. rewrite app_nil_r.
    split; [reflexivity|]. split; [reflexivity|].
    split; [intros e He; by apply elem_of_nil in He|].
    split; [intros e He; by apply elem_of_nil in He|].
    split; [intros tok Ht; by apply elem_of_nil in Ht | reflexivity].
  - cbn [for_eachM]. unfold bind at 1.
    rewrite index_dict_step_run, get_token_indices_run.
    destruct (token_indices st !! t) as [i|] eqn:Hc.
    + (* cached *)
      intros Hrun. destruct (IH _ _ _ _ Hrun) as (evs & Hlog & Hidx & Hev & Hr).
      exists evs. split; [exact Hlog|]. split; [exact Hidx|].
      split.
      { intros e He. destruct (Hev e He) as (tok & -> & Htok).
        exists tok. split; [reflexivity | by apply elem_of_cons; right]. }
      destruct r as [ti|e]; [|exact Hr].
      destruct Hr as (Hok & Hin & Hout). split; [exact Hok|]. split.
      * intros tok Htok. destruct (decide (tok ∈ ts)) as [Hts|Hts].
        { apply Hin, Hts. }
        apply elem_of_cons in Htok as [->|Htok]; [|contradiction].
        exists i. rewrite (Hout _ Hts), lookup_insert_eq.
        split; [reflexivity|]. unfold index_of. rewrite Hc. reflexivity.
      * intros tok Htok. apply not_elem_of_cons in Htok as [Hne Hts].
        rewrite (Hout _ Hts), lookup_insert_ne by congruence. reflexivity.
    + destruct (getCompactData c t) as [rc|e] eqn:Hchain.
      * (* looked up *)
        intros Hrun.
        destruct (IH _ _ _ _ Hrun) as (evs & Hlog & Hidx & Hev & Hr).
        cbn [log token_indices] in Hlog, Hidx, Hr.
        exists (GetCompactData t :: evs).
        split; [rewrite Hlog, <- app_assoc; reflexivity|].
        split.
        { intros tok. rewrite Hidx. apply index_of_insert; assumption. }
        split.
        { intros e He. apply elem_of_cons in He as [->|He].
          - exists t. split; [reflexivity | apply list_elem_of_here].
          - destruct (Hev e He) as (tok & -> & Htok).
            exists tok. split; [reflexivity | by apply elem_of_cons; right]. }
        destruct r as [ti|e].
        -- destruct Hr as (Hok & Hin & Hout). split.
           { intros e He. apply elem_of_cons in He as [->|He].
             - cbn. rewrite Hchain. reflexivity.
             - apply Hok, He. }
           split.
           ++ intros tok Htok. destruct (decide (tok ∈ ts)) as [Hts|Hts].
              { destruct (Hin _ Hts) as (i & Hi & Hio). exists i.
                split; [exact Hi|]. rewrite <- Hio. symmetry.
                apply index_of_insert; assumption. }
              apply elem_of_cons in Htok as [->|Htok]; [|contradiction].
              eexists. rewrite (Hout _ Hts), lookup_insert_eq.
              split; [reflexivity|]. unfold index_of.
              rewrite Hc, Hchain. reflexivity.
           ++ intros tok Htok. apply not_elem_of_cons in Htok as [Hne Hts].
              rewrite (Hout _ Hts), lookup_insert_ne by congruence.
              reflexivity.
        -- destruct Hr as (evs' & tok & -> & Hfail).
           exists (GetCompactData t :: evs'), tok. split; [reflexivity|exact Hfail].
      * (* the lookup failed *)
        intros [= <- <-]. exists [GetCompactData t].
        split; [reflexivity|]. split; [reflexivity|]. split.
        { intros e' He. apply list_elem_of_singleton in He as ->.
          exists t. split; [reflexivity | apply list_elem_of_here]. }
        exists [], t. split; [reflexivity | exact Hchain].
Qed.

Lemma filter_nil_existsb {A} (f : A -> bool) (l : list A) :
  List.filter f l = [] <-> existsb f l = false.
Proof.
  induction l as [|a l IH]; cbn; [tauto|].
  destruct (f a); cbn; [split; discriminate | exact IH].
Qed.

Lemma collect_ok {B} (rs : list (outcome B)) (bs : list B) :
  collect rs = Ok bs -> rs = Ok <$> bs.
Proof.
  revert bs. induction rs as [|r rs IH]; intros bs; cbn.
  - intros [= <-]. reflexivity.
  - destruct r as [b|e]; cbn; [|discriminate].
    destruct (collect rs) as [bs'|e]; cbn; [|discriminate].
    intros [= <-]. rewrite (IH bs' eq_refl). reflexivity.
Qed.

Lemma price_reads_kind p e :
  e ∈ price_reads c p -> exists tok buy, e = @GetBasicRate Hex tok buy.
Proof.
  unfold price_reads. intros He. apply elem_of_cons in He as [->|He]; [eauto|].
  destruct (_ ≫= _); [|by apply elem_of_nil in He].
  apply list_elem_of_singleton in He as ->. eauto.
Qed.

Lemma price_reads_ok p pr e :
  price_of c p = Ok pr -> e ∈ price_reads c p -> failed_read c e = false.
Proof.
  unfold price_of, price_reads. intros Hp He.
  apply bind_ok in Hp as (bb & Hbb & Hp).
  apply bind_ok in Hp as (cb & Hcb & Hp).
  apply bind_ok in Hp as (bs & Hbs & Hp).
  rewrite Hbb in He. cbn [mbind outcome_bind] in He. rewrite Hcb in He.
  apply elem_of_cons in He as [->|He].
  - cbn. rewrite Hbb. reflexivity.
  - apply list_elem_of_singleton in He as ->. cbn. rewrite Hbs. reflexivity.
Qed.

Lemma task_reads_kind (l : list (string * number * number)) e :
  e ∈ mjoin (price_reads c <$> l) -> exists tok buy, e = @GetBasicRate Hex tok buy.
Proof.
  intros He. apply list_elem_of_join in He as (evs & He & Hevs).
  apply list_elem_of_fmap in Hevs as (p & -> & _).
  eapply price_reads_kind, He.
Qed.

Lemma task_reads_ok (l : list (string * number * number)) prices e :
  collect (price_of c <$> l) = Ok prices ->
  e ∈ mjoin (price_reads c <$> l) -> failed_read c e = false.
Proof.
  intros Hc He. apply collect_ok in Hc.
  apply list_elem_of_join in He as (evs & He & Hevs).
  apply list_elem_of_fmap in Hevs as (p & -> & Hp).
  apply list_elem_of_lookup_1 in Hp as (n & Hn).
  assert (Hpr : (price_of c <$> l) !! n = Some (price_of c p))
    by (rewrite list_lookup_fmap, Hn; reflexivity).
  rewrite Hc, list_lookup_fmap in Hpr.
  destruct (prices !! n) as [pr|]; [|discriminate].
  injection Hpr as Hpr. eapply price_reads_ok; [symmetry; exact Hpr | exact He].
Qed.

Lemma task_reads_nonempty (l : list (string * number * number)) :
  l ≠ [] -> exists ev evs, mjoin (price_reads c <$> l) = ev :: evs.
Proof.
  destruct l as [|p l]; [congruence|]. intros _.
  cbn [fmap list_fmap mjoin list_join]. unfold price_reads at 1. cbn [app]. eauto.
Qed.

(** [set_rates], phase by phase. *)
Lemma set_rates_run tokens buys sells st :
  set_rates hexlify c tokens buys sells st =
    match for_eachM (index_dict_step c) ∅ tokens st with
    | (Raise e, st1) => (Raise e, st1)
    | (Ok ti, st1) =>
        let triples := zip3 tokens buys sells in
        let st2 := with_log st1 (mjoin (price_reads c <$> triples)) in
        match collect (price_of c <$> triples) with
        | Raise e => (Raise e, st2)
        | Ok prices =>
            match build_compact_price hexlify prices ti with
            | Raise e => (Raise e, st2)
            | Ok batch =>
                match blockNumber c with
                | Raise e => (Raise e, with_log st2 [BlockNumber])
                | Ok block =>
                    (call_contract c (rates_tx prices batch block),
                     with_log st2
                       [BlockNumber; Transact (rates_tx prices batch block)])
                end
            end
        end
    end.
Proof.
  unfold set_rates, mbind, M_bind. unfold bind at 1.
  destruct (for_eachM (index_dict_step c) ∅ tokens st) as [[ti|e] st1];
    [|reflexivity].
  unfold bind at 1. unfold executor_map. rewrite run_tasks_build_price.
  cbv zeta. destruct (collect _) as [prices|e]; [|reflexivity].
  unfold bind at 1. unfold lift at 1.
  destruct (build_compact_price hexlify prices ti) as [batch|e]; [|reflexivity].
  unfold rates_tx.
  destruct (List.filter Price.base_changed prices) as [|p ps] eqn:Hf.
  - rewrite (proj1 (filter_nil_existsb _ _) Hf). cbn [fmap list_fmap].
    unfold bind, block_number, call_contract_func, chain_call, with_log.
    cbn [token_indices log].
    destruct (blockNumber c); [rewrite <- app_assoc|]; reflexivity.
  - destruct (existsb Price.base_changed prices) eqn:Hany.
    2:{ apply filter_nil_existsb in Hany. congruence. }
    cbn [fmap list_fmap].
    unfold bind, block_number, call_contract_func, chain_call, with_log.
    cbn [token_indices log].
    destruct (blockNumber c); [rewrite <- app_assoc|]; reflexivity.
Qed.

Lemma reads_no_transaction (evs : list (event Hex)) :
  Forall (fun e => is_read e = true) evs ->
  transactions evs = [] /\ BlockNumber ∉ evs.
Proof.
  induction 1 as [|e evs He _ [IH1 IH2]].
  - split; [reflexivity | apply not_elem_of_nil].
  - split.
    + destruct e; try discriminate; exact IH1.
    + apply not_elem_of_cons. split; [|exact IH2].
      intros <-. discriminate.
Qed.

Lemma transactions_app (evs1 evs2 : list (event Hex)) :
  transactions (evs1 ++ evs2) = transactions evs1 ++ transactions evs2.
Proof. apply omap_app. Qed.

(** The three ways a call of [set_rates] can go: it stops during its
    reads or while building the batch; it stops at the read of the block
    number; or it sends the one transaction it has built. *)
Lemma set_rates_cases tokens buys sells st :
  let run := set_rates hexlify c tokens buys sells st in
  exists reads,
    Forall (fun e => is_read e = true) reads /\
    ((exists e, fst run = Raise e /\ reads ≠ [] /\
                log (snd run) = log st ++ reads) \/
     (forall e, e ∈ reads -> failed_read c e = false) /\
     ((exists e, fst run = Raise e /\ blockNumber c = Raise e /\
                 log (snd run) = log st ++ reads ++ [BlockNumber]) \/
      (exists ti prices batch block,
         (forall tok, tok ∈ tokens ->
            exists i, ti !! tok = Some i /\
                      index_of c (token_indices st) tok = Ok i) /\
         collect (price_of c <$> zip3 tokens buys sells) = Ok prices /\
         build_compact_price hexlify prices ti = Ok batch /\
         blockNumber c = Ok block /\
         fst run = call_contract c (rates_tx prices batch block) /\
         log (snd run) =
           log st ++ reads
             ++ [BlockNumber; Transact (rates_tx prices batch block)]))).
Proof.
  cbv zeta. rewrite set_rates_run. cbv zeta.
  destruct (for_eachM (index_dict_step c) ∅ tokens st) as [r1 st1] eqn:H1.
  destruct (index_phase _ _ _ _ _ H1) as (evs1 & Hlog1 & _ & Hkind1 & Hr1).
  assert (Hread1 : Forall (fun e => is_read e = true) evs1).
  { apply Forall_forall. intros e He.
    destruct (Hkind1 e He) as (tok & -> & _). reflexivity. }
  destruct r1 as [ti|e].
  2:{ exists evs1. split; [exact Hread1|]. left. exists e.
      destruct Hr1 as (evs' & tok & -> & _).
      split; [reflexivity|]. split; [|exact Hlog1].
      intros Hnil. apply app_eq_nil in Hnil as [_ Hnil]. discriminate. }
  destruct Hr1 as (Hok1 & Hin & _).
  set (triples := zip3 tokens buys sells).
  set (evs2 := mjoin (price_reads c <$> triples)).
  assert (Hread2 : Forall (fun e => is_read e = true) evs2).
  { apply Forall_forall. intros e He.
    destruct (task_reads_kind _ e He) as (tok & buy & ->). reflexivity. }
  exists (evs1 ++ evs2). split; [apply Forall_app; split; assumption|].
  assert (Hlog2 : log (with_log st1 evs2) = log st ++ evs1 ++ evs2).
  { cbn [with_log log]. rewrite Hlog1, <- app_assoc. reflexivity. }
  assert (Hne : triples ≠ [] -> evs1 ++ evs2 ≠ []).
  { intros Ht Hnil. apply app_eq_nil in Hnil as [_ Hnil].
    destruct (task_reads_nonempty triples Ht) as (ev & evs & Hevs).
    fold evs2 in Hevs. congruence. }
  destruct (collect (price_of c <$> triples)) as [prices|e] eqn:Hc.
  2:{ left. exists e. split; [reflexivity|]. split; [|exact Hlog2].
      apply Hne. intros Ht. rewrite Ht in Hc. discriminate. }
  assert (Hok : forall e, e ∈ evs1 ++ evs2 -> failed_read c e = false).
  { intros e He. apply elem_of_app in He as [He|He].
    - apply Hok1, He.
    - eapply task_reads_ok; [exact Hc | exact He]. }
  destruct (build_compact_price hexlify prices ti) as [batch|e] eqn:Hb.
  2:{ left. exists e. split; [reflexivity|]. split; [|exact Hlog2].
      apply Hne. intros Ht. rewrite Ht in Hc. injection Hc as <-.
      discriminate. }
  right. split; [exact Hok|].
  destruct (blockNumber c) as [block|e] eqn:Hbn.
  - right. exists ti, prices, batch, block.
    split; [exact Hin|]. split; [reflexivity|]. split; [exact Hb|].
    split; [reflexivity|]. split; [reflexivity|].
    cbn [snd log with_log]. cbn [with_log log] in Hlog2.
    rewrite Hlog2, <- !app_assoc. reflexivity.
  - left. exists e. split; [reflexivity|]. split; [reflexivity|].
    cbn [snd log with_log]. cbn [with_log log] in Hlog2.
    rewrite Hlog2, <- !app_assoc. reflexivity.
Qed.
End SetRatesFacts.

(** ** The rate-setting call *)

(** C8: if a token-index lookup or a base-rate read made by [set_rates]
    fails, the call raises, and no transaction is built (the block number
    is not read) or sent. *)
Theorem set_rates_read_failure_aborts {Hex : Type} (hexlify : list Z -> Hex)
    (c : chain Hex) (tokens : list string) (buys sells : list number)
    (st : state Hex) (evs : list (event Hex)) :
  let run := set_rates hexlify c tokens buys sells st in
  log (snd run) = log st ++ evs ->
  (exists e, e ∈ evs /\ failed_read c e = true) ->
  is_raise (fst run) = true /\ transactions evs = [] /\ BlockNumber ∉ evs.
Proof.
  cbv zeta. intros Hevs (e & He & Hfail).
  destruct (set_rates_cases hexlify c tokens buys sells st)
    as (reads & Hreads & Hcase).
  destruct Hcase as [(e' & Hr & _ & Hlog) | [Hok Hcase]].
  - rewrite Hlog in Hevs. apply app_inv_head in Hevs as <-.
    rewrite Hr. split; [reflexivity|]. apply reads_no_transaction, Hreads.
  - exfalso.
    assert (Hin : e ∈ reads \/ is_read e = false).
    { destruct Hcase as [(e' & _ & _ & Hlog) | (ti & prices & batch & block & H)].
      - rewrite Hlog in Hevs. apply app_inv_head in Hevs as <-.
        apply elem_of_app in He as [He|He]; [left; exact He|right].
        apply list_elem_of_singleton in He as ->. reflexivity.
      - destruct H as (_ & _ & _ & _ & _ & Hlog).
        rewrite Hlog in Hevs. apply app_inv_head in Hevs as <-.
        apply elem_of_app in He as [He|He]; [left; exact He|right].
        apply elem_of_cons in He as [->|He]; [reflexivity|].
        apply list_elem_of_singleton in He as ->. reflexivity. }
    destruct Hin as [Hin|Hin].
    + rewrite (Hok e Hin) in Hfail. discriminate.
    + destruct e; discriminate.
Qed.

Lemma set_rates_read_failure_aborts_witness :
  is_raise (fst (set_rates (fun l => l) sample_chain
                   ["0xA"; "0xC"; "0xB"]
                   [PyInt 105; PyInt 1; PyInt 2]
                   [PyInt 1000; PyInt 990; PyInt 3] fresh_state)) = true /\
  transactions sample_failed_trace = [] /\
  BlockNumber ∉ sample_failed_trace.
Proof.
  apply (set_rates_read_failure_aborts (fun l => l) sample_chain
           ["0xA"; "0xC"; "0xB"] [PyInt 105; PyInt 1; PyInt 2]
           [PyInt 1000; PyInt 990; PyInt 3] fresh_state).
  - vm_compute. reflexivity.
  - exists (GetBasicRate "0xC" true). split; [|vm_compute; reflexivity].
    unfold sample_failed_trace.
    do 5 apply list_elem_of_further. apply list_elem_of_here.
Defined.

Lemma zip3_take {A B C} (a : list A) : forall (b : list B) (c : list C),
  zip3 a b c =
    zip3 a (take (Nat.min (length a) (Nat.min (length b) (length c))) b)
           (take (Nat.min (length a) (Nat.min (length b) (length c))) c).
Proof.
  induction a as [|x a IH]; intros b c; [reflexivity|].
  destruct b as [|y b]; [reflexivity|].
  destruct c as [|z c]; [destruct (Nat.min _ _); reflexivity|].
  cbn [length Nat.min take zip3]. rewrite <- IH. reflexivity.
Qed.

(** C7, as the code has it: [set_rates] validates nothing.  No call is
    turned down before the chain is asked: every run adds at least one
    event to the trace, whatever its input; and lists of different
    lengths are cut to the shortest by [zip], the call going on with the
    triples that remain. *)
Theorem set_rates_no_validation {Hex : Type} (hexlify : list Z -> Hex)
    (c : chain Hex) (tokens : list string) (buys sells : list number)
    (st : state Hex) :
  let run := set_rates hexlify c tokens buys sells st in
  (exists ev evs, log (snd run) = log st ++ ev :: evs) /\
  ~ rejected_before_chain run st /\
  (let n := Nat.min (length tokens) (Nat.min (length buys) (length sells)) in
   run = set_rates hexlify c tokens (take n buys) (take n sells) st).
Proof.
  cbv zeta.
  assert (Hev : exists ev evs,
            log (snd (set_rates hexlify c tokens buys sells st))
            = log st ++ ev :: evs).
  { destruct (set_rates_cases hexlify c tokens buys sells st)
      as (reads & _ & Hcase).
    destruct Hcase as [(e & _ & Hne & Hlog) | [_ [(e & _ & _ & Hlog) | Hsent]]].
    - destruct reads as [|ev evs]; [congruence|]. eauto.
    - rewrite Hlog. destruct reads as [|ev evs]; cbn [app]; eauto.
    - destruct Hsent as (ti & prices & batch & block & _ & _ & _ & _ & _ & Hlog).
      rewrite Hlog. destruct reads as [|ev evs]; cbn [app]; eauto. }
  split; [exact Hev|]. split.
  - intros [_ Hlog]. destruct Hev as (ev & evs & Hev). rewrite Hev in Hlog.
    rewrite <- (app_nil_r (log st)) in Hlog at 2.
    apply app_inv_head in Hlog. discriminate.
  - rewrite !set_rates_run, <- zip3_take. reflexivity.
Qed.

Lemma set_rates_validates_counterexample :
  (malformed ["0xA"; "0xB"] [PyInt 105] [PyInt 1000; PyInt 990] /\
   ~ rejected_before_chain
       (set_rates (fun l => l) sample_chain ["0xA"; "0xB"] [PyInt 105]
          [PyInt 1000; PyInt 990] fresh_state) fresh_state /\
   fst (set_rates (fun l => l) sample_chain ["0xA"; "0xB"] [PyInt 105]
          [PyInt 1000; PyInt 990] fresh_state) = Ok "0xhash"%string /\
   log (snd (set_rates (fun l => l) sample_chain ["0xA"; "0xB"] [PyInt 105]
               [PyInt 1000; PyInt 990] fresh_state)) =
     [GetCompactData "0xA"; GetCompactData "0xB";
      GetBasicRate "0xA" true; GetBasicRate "0xA" false; BlockNumber;
      Transact
        (SetCompactData [[0; 0; 0; 50; 0; 0; 0; 0; 0; 0; 0; 0; 0; 0]]
           [[0; 0; 0; 0; 0; 0; 0; 0; 0; 0; 0; 0; 0; 0]] 42 [0])]) /\
  (malformed ["0xA"] [PyInt 100] [PyInt (-5)] /\
   log (snd (set_rates (fun l => l) sample_chain ["0xA"] [PyInt 100]
               [PyInt (-5)] fresh_state)) =
     [GetCompactData "0xA";
      GetBasicRate "0xA" true; GetBasicRate "0xA" false; BlockNumber;
      Transact
        (SetBaseRate ["0xA"] [PyInt 100] [PyInt (-5)]
           [[0; 0; 0; 0; 0; 0; 0; 0; 0; 0; 0; 0; 0; 0]]
           [[0; 0; 0; 0; 0; 0; 0; 0; 0; 0; 0; 0; 0; 0]] 42 [0])]) /\
  (malformed ["0xA"] [PyFloat S754_nan] [PyInt 1000] /\
   set_rates (fun l => l) sample_chain ["0xA"] [PyFloat S754_nan]
     [PyInt 1000] fresh_state =
     (Raise ValueError,
      {| token_indices := {["0xA"%string := TokenIndex.mk 0 3]};
         log := [GetCompactData "0xA"; GetBasicRate "0xA" true] |})).
Proof.
  split; [|split].
  - split; [left; cbn; lia|]. split; [|split].
    + intros [H _]. vm_compute in H. discriminate.
    + vm_compute. reflexivity.
    + vm_compute. reflexivity.
  - split; [|vm_compute; reflexivity].
    right. right. apply Exists_cons_tl, Exists_cons_hd. reflexivity.
  - split; [|vm_compute; reflexivity].
    right. right. apply Exists_cons_hd. reflexivity.
Qed.

(** ** A rate equal to its base has delta 0 *)

Lemma div_core_self (m : Z) (e : Z) :
  0 < m ->
  SFdiv_core_binary Float.prec Float.emax m e m e = (2 ^ 53, -53, loc_Exact).
Proof.
  intros Hm. unfold SFdiv_core_binary.
  rewrite !Z.sub_diag.
  change (Z.min (fexp Float.prec Float.emax 0) 0) with (-53).
  change (0 - -53) with 53.
  cbv iota beta zeta.
  assert (Hd : Z.div_eucl (Z.shiftl m 53) m = (2 ^ 53, 0)).
  { rewrite Z.shiftl_mul_pow2 by lia.
    pose proof (Z.div_eucl_eq (m * 2 ^ 53) m ltac:(lia)) as Heq.
    pose proof (Z.mod_pos_bound (m * 2 ^ 53) m Hm) as Hb.
    unfold Z.modulo in Hb.
    destruct (Z.div_eucl (m * 2 ^ 53) m) as [q r].
    assert (q = 2 ^ 53) by nia. assert (r = 0) by nia. congruence. }
  rewrite Hd. unfold new_location. destruct (Z.even m); reflexivity.
Qed.

Lemma div_Z_self (a : Z) : a ≠ 0 -> Float.div_Z a a = float_one.
Proof.
  intros Ha. unfold Float.div_Z.
  rewrite div_core_self by lia. rewrite xorb_nilpotent.
  vm_compute. reflexivity.
Qed.

Lemma div_self s m e :
  Float.div (S754_finite s m e) (S754_finite s m e) = float_one.
Proof.
  unfold Float.div, SFdiv. rewrite div_core_self by lia.
  rewrite xorb_nilpotent. vm_compute. reflexivity.
Qed.

Lemma SFeqb_finite s1 m1 e1 s2 m2 e2 :
  SFeqb (S754_finite s1 m1 e1) (S754_finite s2 m2 e2) = true ->
  s1 = s2 /\ m1 = m2 /\ e1 = e2.
Proof.
  unfold SFeqb, SFcompare.
  destruct s1, s2; try discriminate;
    destruct (Z.compare_spec e1 e2) as [->| |]; try discriminate;
    change (Pos.compare_cont Eq m1 m2) with (Pos.compare m1 m2);
    destruct (Pos.compare_spec m1 m2) as [->| |]; try discriminate; auto.
Qed.

Lemma delta_bps_one rate base :
  py_truediv rate base = Ok float_one -> delta_bps rate base = Ok 0.
Proof. intros H. unfold delta_bps. rewrite H. vm_compute. reflexivity. Qed.

Lemma delta_bps_nan rate base :
  py_truediv rate base = Ok S754_nan -> delta_bps rate base = Raise ValueError.
Proof. intros H. unfold delta_bps. rewrite H. vm_compute. reflexivity. Qed.

(** *** Integers convert exactly to the floats they equal *)
Lemma iter_pos_iter {A} (f : A -> A) (p : positive) (x : A) :
  SpecFloat.iter_pos f p x = Pos.iter f x p.
Proof.
  revert x. induction p as [p IH|p IH|]; intros x; cbn.
  - rewrite !IH, <- !Pos.iter_swap. reflexivity.
  - rewrite !IH. reflexivity.
  - reflexivity.
Qed.

Lemma iter_xO_Z (m p : positive) :
  Z.pos (Pos.iter xO m p) = Z.pos m * 2 ^ Z.pos p.
Proof.
  induction p as [|p IH] using Pos.peano_ind.
  - cbn. lia.
  - rewrite Pos.iter_succ, Pos2Z.inj_succ, Z.pow_succ_r by lia.
    rewrite Pos2Z.inj_xO, IH. lia.
Qed.

Lemma digits2_pos_iter_xO (m p : positive) :
  Z.pos (digits2_pos (Pos.iter xO m p)) = Z.pos (digits2_pos m) + Z.pos p.
Proof.
  induction p as [|p IH] using Pos.peano_ind.
  - cbn. lia.
  - rewrite Pos.iter_succ. cbn [digits2_pos]. lia.
Qed.

Lemma shr_iter_xO (m p : positive) :
  Pos.iter shr_1 (Build_shr_record (Z.pos (Pos.iter xO m p)) false false) p
  = Build_shr_record (Z.pos m) false false.
Proof.
  induction p as [|p IH] using Pos.peano_ind.
  - reflexivity.
  - rewrite Pos.iter_succ_r, Pos.iter_succ. exact IH.
Qed.

Lemma shr_fexp_canonical (m : positive) (e : Z) :
  canonical_mantissa Float.prec Float.emax m e = true ->
  shr_fexp Float.prec Float.emax (Z.pos m) e loc_Exact
  = (Build_shr_record (Z.pos m) false false, e).
Proof.
  unfold canonical_mantissa, shr_fexp. intros H. apply Z.eqb_eq in H.
  cbn [Zdigits2]. rewrite H, Z.sub_diag. reflexivity.
Qed.

Lemma binary_round_aux_canonical s (m : positive) (e : Z) :
  Float.valid (S754_finite s m e) = true ->
  binary_round_aux Float.prec Float.emax s (Z.pos m) e loc_Exact
  = S754_finite s m e.
Proof.
  unfold Float.valid, valid_binary, bounded. intros H.
  apply andb_true_iff in H as [Hc He].
  unfold binary_round_aux. rewrite (shr_fexp_canonical _ _ Hc).
  cbn [shr_m loc_of_shr_record round_nearest_even].
  rewrite (shr_fexp_canonical _ _ Hc). cbn [shr_m].
  change (Float.emax - Float.prec) with (1024 - 53) in He.
  change (Float.emax - Float.prec) with (1024 - 53). rewrite He. reflexivity.
Qed.

Lemma fexp_binary64 (x : Z) :
  fexp Float.prec Float.emax x = Z.max (x - 53) (-1074).
Proof. reflexivity. Qed.

Lemma binary_round_aux_exact s (mx ex : Z) (m : positive) (e : Z) :
  shr_fexp Float.prec Float.emax mx ex loc_Exact
  = (Build_shr_record (Z.pos m) false false, e) ->
  Float.valid (S754_finite s m e) = true ->
  binary_round_aux Float.prec Float.emax s mx ex loc_Exact = S754_finite s m e.
Proof.
  intros Hshr Hv. pose proof (binary_round_aux_canonical s m e Hv) as Hcan.
  unfold binary_round_aux in *. rewrite Hshr.
  apply andb_true_iff in Hv as [Hc _].
  rewrite (shr_fexp_canonical _ _ Hc) in Hcan. exact Hcan.
Qed.

Lemma binary_round_exact s (x m : positive) (e : Z) :
  Float.valid (S754_finite s m e) = true ->
  Z.pos x * 2 ^ Z.max (- e) 0 = Z.pos m * 2 ^ Z.max e 0 ->
  binary_round Float.prec Float.emax s x 0 = S754_finite s m e.
Proof.
  intros Hv Hx. pose proof Hv as Hv'.
  apply andb_true_iff in Hv' as [Hc _]. unfold canonical_mantissa in Hc.
  apply Z.eqb_eq in Hc. rewrite fexp_binary64 in Hc.
  unfold binary_round. rewrite fexp_binary64, Z.add_0_r.
  destruct e as [|p|p].
  - change (Z.max (- 0) 0) with 0 in Hx. change (Z.max 0 0) with 0 in Hx.
    rewrite Z.pow_0_r, !Z.mul_1_r in Hx. injection Hx as ->.
    rewrite Z.add_0_r in Hc. rewrite Hc. cbn [shl_align Z.sub Z.add Z.opp].
    apply binary_round_aux_canonical, Hv.
  - rewrite Z.max_r, Z.max_l, Z.pow_0_r, Z.mul_1_r in Hx by lia.
    rewrite <- iter_xO_Z in Hx. injection Hx as ->.
    rewrite digits2_pos_iter_xO, Hc. cbn [shl_align Z.sub Z.add Z.opp].
    apply binary_round_aux_exact; [|exact Hv].
    unfold shr_fexp. cbn [Zdigits2 shr_record_of_loc].
    rewrite fexp_binary64, Z.add_0_r, digits2_pos_iter_xO, Hc, Z.sub_0_r.
    cbn [shr]. rewrite iter_pos_iter, shr_iter_xO. reflexivity.
  - rewrite Z.max_l, Z.max_r, Z.pow_0_r, Z.mul_1_r in Hx by lia.
    change (- Z.neg p) with (Z.pos p) in Hx.
    rewrite <- iter_xO_Z in Hx. injection Hx as <-.
    rewrite digits2_pos_iter_xO in Hc.
    assert (Hd : Z.max (Z.pos (digits2_pos x) - 53) (-1074) = Z.neg p) by lia.
    rewrite Hd. cbn [shl_align Z.sub Z.add Z.opp].
    apply binary_round_aux_canonical, Hv.
Qed.

Lemma of_Z_exact s m e a :
  Float.valid (S754_finite s m e) = true ->
  Float.eqb_Z (S754_finite s m e) a = true ->
  Float.of_Z a = S754_finite s m e.
Proof.
  intros Hv Heq. unfold Float.eqb_Z in Heq. unfold Float.of_Z.
  assert (Ha : a * 2 ^ Z.max (- e) 0 = cond_Zopp s (Z.pos m * 2 ^ Z.max e 0)).
  { destruct (Z.leb_spec 0 e); apply Z.eqb_eq in Heq.
    - rewrite Z.max_r, Z.max_l, Z.pow_0_r by lia. lia.
    - rewrite Z.max_l, Z.max_r, Z.pow_0_r, Z.mul_1_r by lia. exact Heq. }
  assert (Hp1 : 0 < 2 ^ Z.max (- e) 0) by (apply Z.pow_pos_nonneg; lia).
  assert (Hp2 : 0 < 2 ^ Z.max e 0) by (apply Z.pow_pos_nonneg; lia).
  destruct s; cbn [cond_Zopp] in Ha.
  - destruct a as [|x|x]; [lia | nia |].
    cbn [binary_normalize]. apply binary_round_exact; [exact Hv | lia].
  - destruct a as [|x|x]; [lia | | nia].
    cbn [binary_normalize]. apply binary_round_exact; [exact Hv | lia].
Qed.

Lemma delta_bps_equal rate base :
  valid_number rate = true ->
  valid_number base = true ->
  py_eq rate base = true ->
  py_eq base (PyInt 0) = false ->
  delta_bps rate base = Ok 0 \/ delta_bps rate base = Raise ValueError.
Proof.
  destruct rate as [a|f], base as [b|g]; cbn [valid_number py_eq].
  - intros _ _ Hab Hb. apply Z.eqb_eq in Hab as ->. left.
    apply delta_bps_one. unfold py_truediv. rewrite Hb.
    apply Z.eqb_neq in Hb. rewrite div_Z_self by exact Hb. reflexivity.
  - intros _ Hv Heq Hz.
    destruct g as [s|s| |s m e]; try discriminate Heq.
    + cbn [Float.eqb_Z] in Heq, Hz. apply Z.eqb_eq in Heq. subst a.
      discriminate.
    + left. apply delta_bps_one. unfold py_truediv, to_float, float_of_int.
      rewrite (of_Z_exact _ _ _ _ Hv Heq).
      cbn [Float.is_inf mbind outcome_bind Float.is_zero].
      rewrite div_self. reflexivity.
  - intros Hv _ Heq Hz.
    destruct f as [s|s| |s m e]; try discriminate Heq.
    + cbn [Float.eqb_Z] in Heq. congruence.
    + left. apply delta_bps_one. unfold py_truediv, to_float, float_of_int.
      rewrite (of_Z_exact _ _ _ _ Hv Heq).
      cbn [Float.is_inf mbind outcome_bind Float.is_zero].
      rewrite div_self. reflexivity.
  - unfold Float.eqb. intros _ _.
    destruct f as [s1|s1| |s1 m1 e1], g as [s2|s2| |s2 m2 e2];
      try discriminate.
    all: intros H1 H2.
    all: try (vm_compute in H2; discriminate).
    all: try (destruct s1, s2; vm_compute in H1; discriminate).
    all: try (destruct s1; vm_compute in H1; discriminate).
    all: try (destruct s2; vm_compute in H1; discriminate).
    + right. apply delta_bps_nan. reflexivity.
    + apply SFeqb_finite in H1 as (-> & -> & ->). left.
      apply delta_bps_one. unfold py_truediv, to_float.
      cbn [mbind outcome_bind Float.is_zero]. rewrite div_self. reflexivity.
Qed.

Lemma could_not_fit_differs rate base :
  valid_number rate = true ->
  valid_number base = true ->
  py_eq base (PyInt 0) = false ->
  could_not_fit rate base = true ->
  py_ne rate base = true.
Proof.
  intros Hr Hb Hz Hc. unfold py_ne. destruct (py_eq rate base) eqn:Heq;
    [|reflexivity].
  unfold could_not_fit in Hc. rewrite Hz in Hc.
  destruct (delta_bps_equal _ _ Hr Hb Heq Hz) as [Hd|Hd];
    rewrite Hd in Hc; discriminate.
Qed.

(** ** Price updates *)

Lemma SFeqb_refl_finite s m e :
  SFeqb (S754_finite s m e) (S754_finite s m e) = true.
Proof.
  unfold SFeqb, SFcompare. rewrite Z.compare_refl.
  change (Pos.compare_cont Eq m m) with (Pos.compare m m).
  rewrite Pos.compare_refl. destruct s; reflexivity.
Qed.

(** A base against which a delta could be computed equals itself (it is
    not a NaN). *)
Lemma delta_bps_base_eq rate base d :
  delta_bps rate base = Ok d -> py_eq base base = true.
Proof.
  destruct base as [b|g]; cbn [py_eq]; [intros _; apply Z.eqb_refl|].
  destruct g as [s|s| |s m e]; try (intros _; destruct s; reflexivity).
  - intros H. exfalso. unfold delta_bps in H.
    apply bind_ok in H as (q & Hq & H).
    assert (q = S754_nan) as ->.
    { unfold py_truediv in Hq. destruct rate as [a|f].
      - apply bind_ok in Hq as (fx & _ & Hq). cbn in Hq.
        injection Hq as <-. destruct fx; reflexivity.
      - cbn in Hq. injection Hq as <-. destruct f; reflexivity. }
    vm_compute in H. discriminate.
  - intros _. apply SFeqb_refl_finite.
Qed.

Lemma get_compact_data_leg rate base r :
  get_compact_data rate base = Ok r ->
  leg_invariant rate base (CompactData.base r) (CompactData.compact r).
Proof.
  unfold get_compact_data, leg_invariant, could_not_fit.
  destruct (py_eq base (PyInt 0)); cbn [orb].
  - intros [= <-]. split; reflexivity.
  - destruct (delta_bps rate base) as [d|e]; cbn [mbind outcome_bind];
      [|discriminate].
    destruct (Z.leb_spec d (-128)); cbn [orb].
    + intros [= <-]. split; reflexivity.
    + destruct (Z.leb_spec 127 d); intros [= <-]; cbn.
      * split; reflexivity.
      * split; [reflexivity|]. exists d. split; [reflexivity|].
        split; [lia | reflexivity].
Qed.

Lemma get_compact_data_changed rate base r :
  get_compact_data rate base = Ok r ->
  (py_ne (CompactData.base r) base = true <->
   could_not_fit rate base = true /\ py_ne rate base = true).
Proof.
  intros Hr. pose proof (get_compact_data_leg _ _ _ Hr) as Hleg.
  unfold leg_invariant in Hleg.
  destruct (could_not_fit rate base) eqn:Hc.
  - destruct Hleg as [-> _]. tauto.
  - destruct Hleg as (-> & d & Hd & _).
    unfold py_ne. rewrite (delta_bps_base_eq _ _ _ Hd). cbn.
    split; [discriminate | intros [? _]; discriminate].
Qed.

(** C4, as the code has it: each leg of a price update made by
    [build_price] is compacted on its own.  A leg that could not fit holds
    the new rate and compact 0; a leg that fits keeps the recorded base
    and holds its delta byte.  [base_changed] is true iff some leg could
    not fit with a rate different from its recorded base, which is always
    so when that base is not zero; when it is false, both bases equal the
    recorded ones. *)
Theorem build_price_invariant {Hex : Type} (c : chain Hex) (token : string)
    (buy sell : number) (st st' : state Hex) (p : Price.t) :
  build_price c token buy sell st = (Ok p, st') ->
  exists base_buy base_sell,
    getBasicRate c token true = Ok base_buy /\
    getBasicRate c token false = Ok base_sell /\
    leg_invariant buy base_buy (Price.base_buy p) (Price.compact_buy p) /\
    leg_invariant sell base_sell (Price.base_sell p) (Price.compact_sell p) /\
    (Price.base_changed p = true <->
     (could_not_fit buy base_buy = true /\ py_ne buy base_buy = true) \/
     (could_not_fit sell base_sell = true /\ py_ne sell base_sell = true)) /\
    (Price.base_changed p = false ->
     py_eq (Price.base_buy p) base_buy = true /\
     py_eq (Price.base_sell p) base_sell = true) /\
    (valid_number buy = true -> valid_number base_buy = true ->
     py_eq base_buy (PyInt 0) = false ->
     could_not_fit buy base_buy = true -> Price.base_changed p = true) /\
    (valid_number sell = true -> valid_number base_sell = true ->
     py_eq base_sell (PyInt 0) = false ->
     could_not_fit sell base_sell = true -> Price.base_changed p = true).
Proof.
  rewrite build_price_run. intros [= Hp _]. unfold price_of in Hp.
  cbn [fst snd] in Hp.
  apply bind_ok in Hp as (bb & Hbb & Hp).
  apply bind_ok in Hp as (cb & Hcb & Hp).
  apply bind_ok in Hp as (bs & Hbs & Hp).
  apply bind_ok in Hp as (cs & Hcs & Hp).
  injection Hp as <-. cbn [Price.base_buy Price.base_sell Price.compact_buy
                             Price.compact_sell Price.base_changed].
  exists bb, bs.
  pose proof (get_compact_data_changed _ _ _ Hcb) as Hchb.
  pose proof (get_compact_data_changed _ _ _ Hcs) as Hchs.
  assert (Hiff :
    py_ne (CompactData.base cb) bb || py_ne (CompactData.base cs) bs = true <->
    (could_not_fit buy bb = true /\ py_ne buy bb = true) \/
    (could_not_fit sell bs = true /\ py_ne sell bs = true)).
  { rewrite orb_true_iff, Hchb, Hchs. reflexivity. }
  split; [exact Hbb|]. split; [exact Hbs|].
  split; [apply get_compact_data_leg, Hcb|].
  split; [apply get_compact_data_leg, Hcs|].
  split; [exact Hiff|]. split; [|split].
  - intros Hf. apply orb_false_iff in Hf as [Hf1 Hf2].
    unfold py_ne in Hf1, Hf2. apply negb_false_iff in Hf1, Hf2. auto.
  - intros Hv1 Hv2 Hz Hc. apply Hiff. left. split; [exact Hc|].
    apply could_not_fit_differs; assumption.
  - intros Hv1 Hv2 Hz Hc. apply Hiff. right. split; [exact Hc|].
    apply could_not_fit_differs; assumption.
Qed.

Lemma build_price_invariant_witness :
  exists base_buy base_sell,
    getBasicRate sample_chain "0xB" true = Ok base_buy /\
    getBasicRate sample_chain "0xB" false = Ok base_sell /\
    leg_invariant (PyInt 150) base_buy (PyInt 150) 0 /\
    leg_invariant (PyInt 990) base_sell (PyInt 1000) 246 /\
    (true = true <->
     (could_not_fit (PyInt 150) base_buy = true /\
      py_ne (PyInt 150) base_buy = true) \/
     (could_not_fit (PyInt 990) base_sell = true /\
      py_ne (PyInt 990) base_sell = true)) /\
    (true = false ->
     py_eq (PyInt 150) base_buy = true /\ py_eq (PyInt 1000) base_sell = true) /\
    (valid_number (PyInt 150) = true -> valid_number base_buy = true ->
     py_eq base_buy (PyInt 0) = false ->
     could_not_fit (PyInt 150) base_buy = true -> true = true) /\
    (valid_number (PyInt 990) = true -> valid_number base_sell = true ->
     py_eq base_sell (PyInt 0) = false ->
     could_not_fit (PyInt 990) base_sell = true -> true = true).
Proof.
  apply (build_price_invariant sample_chain "0xB" (PyInt 150) (PyInt 990)
           fresh_state
           (with_log fresh_state
              [GetBasicRate "0xB" true; GetBasicRate "0xB" false])
           (Price.mk "0xB" (PyInt 150) (PyInt 1000) 0 246 true)).
  vm_compute. reflexivity.
Defined.

Lemma build_price_invariant_counterexample :
  (exists st',
     build_price sample_chain "0xB" (PyInt 150) (PyInt 990) fresh_state =
       (Ok (Price.mk "0xB" (PyInt 150) (PyInt 1000) 0 246 true), st')) /\
  getBasicRate sample_chain "0xB" true = Ok (PyInt 100) /\
  getBasicRate sample_chain "0xB" false = Ok (PyInt 1000) /\
  ~ price_invariant_as_specified
      (Price.mk "0xB" (PyInt 150) (PyInt 1000) 0 246 true)
      (PyInt 150) (PyInt 990) (PyInt 100) (PyInt 1000) /\
  (exists st',
     build_price unset_chain "0xA" (PyInt 0) (PyInt 0) fresh_state =
       (Ok (Price.mk "0xA" (PyInt 0) (PyInt 0) 0 0 false), st')) /\
  ~ price_invariant_as_specified
      (Price.mk "0xA" (PyInt 0) (PyInt 0) 0 0 false)
      (PyInt 0) (PyInt 0) (PyInt 0) (PyInt 0).
Proof.
  split; [eexists; vm_compute; reflexivity|].
  split; [reflexivity|]. split; [reflexivity|]. split; [|split].
  - intros (_ & H & _). destruct (H eq_refl) as (_ & Hsell & _).
    discriminate Hsell.
  - eexists. vm_compute. reflexivity.
  - intros (H & _). destruct H as [_ H].
    assert (Hc : could_not_fit (PyInt 0) (PyInt 0) = true) by reflexivity.
    specialize (H (or_introl Hc)). discriminate H.
Qed.

(** * Further properties of the code *)

(** ** The cache of token indices *)



(** X2: when the chain lookup of an uncached token fails,
    [get_token_indices] raises that error and caches nothing: the cache is
    unchanged, the token is still unknown, and the next call asks the
    chain again. *)
Theorem get_token_indices_failure {Hex : Type} (c : chain Hex)
    (tok : string) (st : state Hex) (e : exn) :
  token_indices st !! tok = None ->
  getCompactData c tok = Raise e ->
  let run := get_token_indices c tok st in
  fst run = Raise e /\
  token_indices (snd run) = token_indices st /\
  log (snd run) = log st ++ [GetCompactData tok] /\
  log (snd (get_token_indices c tok (snd run)))
  = log st ++ [GetCompactData tok; GetCompactData tok].
Proof.
  intros Hnone Hfail. cbv zeta.
  rewrite !get_token_indices_run, Hnone, Hfail. cbn [fst snd with_log
    token_indices log]. rewrite Hnone. cbn [snd with_log log].
  rewrite <- app_assoc.
  split; [reflexivity|]. split; [reflexivity|]. split; reflexivity.
Qed.

Lemma get_token_indices_failure_witness :
  fst (get_token_indices sample_chain "0xZ" fresh_state)
  = Raise (ChainError 1) /\
  token_indices (snd (get_token_indices sample_chain "0xZ" fresh_state))
  = token_indices fresh_state /\
  log (snd (get_token_indices sample_chain "0xZ" fresh_state))
  = log fresh_state ++ [GetCompactData "0xZ"] /\
  log (snd (get_token_indices sample_chain "0xZ"
              (snd (get_token_indices sample_chain "0xZ" fresh_state))))
  = log fresh_state ++ [GetCompactData "0xZ"; GetCompactData "0xZ"].
Proof.
  apply (get_token_indices_failure sample_chain "0xZ" fresh_state
           (ChainError 1)); reflexivity.
Defined.

(** ** More on [get_compact_data] *)

(** *** A non-zero integer does not convert to a float zero *)

Lemma digits2_pos_lower (x : positive) :
  2 ^ (Z.pos (digits2_pos x) - 1) <= Z.pos x.
Proof.
  induction x as [x IH|x IH|]; cbn [digits2_pos].
  - rewrite Pos2Z.inj_succ. replace (Z.succ (Z.pos (digits2_pos x)) - 1)
      with (Z.succ (Z.pos (digits2_pos x) - 1)) by lia.
    rewrite Z.pow_succ_r by lia. lia.
  - rewrite Pos2Z.inj_succ. replace (Z.succ (Z.pos (digits2_pos x)) - 1)
      with (Z.succ (Z.pos (digits2_pos x) - 1)) by lia.
    rewrite Z.pow_succ_r by lia. lia.
  - cbn. lia.
Qed.

Lemma shr_1_m (r : shr_record) :
  0 <= shr_m r -> shr_m (shr_1 r) = shr_m r / 2.
Proof.
  destruct r as [m r s]. cbn [shr_m]. intros Hm.
  destruct m as [|[p|p|]|p]; cbn [shr_1 shr_m]; try lia.
  all: try reflexivity.
  - apply Z.div_unique with 1; lia.
  - apply Z.div_unique with 0; lia.
Qed.

Lemma iter_shr_m (p : positive) (r : shr_record) :
  0 <= shr_m r ->
  shr_m (Pos.iter shr_1 r p) = shr_m r / 2 ^ Z.pos p.
Proof.
  intros Hr. induction p as [|p IH] using Pos.peano_ind.
  - cbn [Pos.iter]. rewrite shr_1_m by exact Hr. reflexivity.
  - rewrite Pos.iter_succ, shr_1_m, IH.
    + rewrite Pos2Z.inj_succ, Z.pow_succ_r, Z.div_div by lia.
      rewrite (Z.mul_comm 2). reflexivity.
    + rewrite IH. apply Z.div_pos; [exact Hr | apply Z.pow_pos_nonneg; lia].
Qed.

Lemma shr_m_of_loc (m : Z) (l : location) :
  shr_m (shr_record_of_loc m l) = m.
Proof. destruct l as [|[| |]]; reflexivity. Qed.

Lemma shr_fexp_pos (m e : Z) (l : location) :
  0 < m -> -1021 <= e ->
  0 < shr_m (fst (shr_fexp Float.prec Float.emax m e l)) /\
  e <= snd (shr_fexp Float.prec Float.emax m e l).
Proof.
  intros Hm He. destruct m as [|x|x]; try lia.
  unfold shr_fexp. cbn [Zdigits2]. rewrite fexp_binary64.
  pose proof (digits2_pos_lower x) as Hlow.
  assert (Hd : 0 < Z.pos (digits2_pos x)) by lia.
  replace (Z.max (Z.pos (digits2_pos x) + e - 53) (-1074) - e)
    with (Z.pos (digits2_pos x) - 53) by lia.
  destruct (Z.pos (digits2_pos x) - 53) as [|p|p] eqn:Hn; cbn [shr fst snd];
    rewrite ?shr_m_of_loc; try lia.
  rewrite iter_pos_iter, iter_shr_m by (rewrite shr_m_of_loc; lia).
  rewrite shr_m_of_loc. split; [|lia].
  assert (Hp : 0 < 2 ^ Z.pos p) by (apply Z.pow_pos_nonneg; lia).
  assert (Hle : 2 ^ Z.pos p <= Z.pos x).
  { etransitivity; [|exact Hlow]. apply Z.pow_le_mono_r; lia. }
  apply Z.div_str_pos. lia.
Qed.

Lemma round_nearest_even_ge (m : Z) (l : location) :
  m <= round_nearest_even m l.
Proof.
  destruct l as [|[| |]]; cbn [round_nearest_even]; try lia.
  destruct (Z.even m); lia.
Qed.

Lemma binary_round_aux_nonzero s (m e : Z) (l : location) :
  0 < m -> -1021 <= e ->
  Float.is_zero (binary_round_aux Float.prec Float.emax s m e l) = false.
Proof.
  intros Hm He. unfold binary_round_aux.
  destruct (shr_fexp_pos m e l Hm He) as [Hm1 He1].
  destruct (shr_fexp Float.prec Float.emax m e l) as [mrs' e'].
  cbn [fst snd] in Hm1, He1.
  pose proof (round_nearest_even_ge (shr_m mrs') (loc_of_shr_record mrs'))
    as Hge.
  destruct (shr_fexp_pos
              (round_nearest_even (shr_m mrs') (loc_of_shr_record mrs'))
              e' loc_Exact ltac:(lia) ltac:(lia)) as [Hm2 _].
  destruct (shr_fexp Float.prec Float.emax _ e' loc_Exact) as [mrs'' e''].
  cbn [fst] in Hm2.
  destruct (shr_m mrs'') as [|y|y]; try lia.
  destruct (e'' <=? Float.emax - Float.prec); reflexivity.
Qed.

Lemma of_Z_nonzero (b : Z) : b ≠ 0 -> Float.is_zero (Float.of_Z b) = false.
Proof.
  intros Hb. unfold Float.of_Z.
  assert (Hround : forall s x,
            Float.is_zero (binary_round Float.prec Float.emax s x 0) = false).
  { intros s x. unfold binary_round. rewrite fexp_binary64, Z.add_0_r.
    pose proof (Pos2Z.is_pos (digits2_pos x)) as Hd.
    unfold shl_align.
    destruct (Z.max (Z.pos (digits2_pos x) - 53) (-1074) - 0) as [|d|d] eqn:Hs;
      apply binary_round_aux_nonzero; lia. }
  destruct b as [|x|x]; [congruence | |]; apply Hround.
Qed.

(** An integer rate against the same integer base: nothing to record. *)
Lemma get_compact_data_int_self (a : Z) :
  get_compact_data (PyInt a) (PyInt a) = Ok (CompactData.mk (PyInt a) 0).
Proof.
  destruct (Z.eq_dec a 0) as [->|Ha]; [reflexivity|].
  unfold get_compact_data. cbn [py_eq].
  destruct (Z.eqb_spec a 0) as [|_]; [contradiction|].
  rewrite (delta_bps_one (PyInt a) (PyInt a)); [reflexivity|].
  unfold py_truediv. cbn [py_eq].
  destruct (Z.eqb_spec a 0) as [|_]; [contradiction|].
  rewrite div_Z_self by exact Ha. reflexivity.
Qed.

(** The delta of a rate against a base equal to it: 0, except that the
    quotient of two equal infinities is a NaN, which [int()] refuses. *)
Lemma delta_bps_equal_exact rate base :
  valid_number rate = true ->
  valid_number base = true ->
  py_eq rate base = true ->
  py_eq base (PyInt 0) = false ->
  delta_bps rate base = if is_infinite base then Raise ValueError else Ok 0.
Proof.
  destruct rate as [a|f], base as [b|g]; cbn [valid_number py_eq is_infinite].
  - intros _ _ Hab Hb. apply Z.eqb_eq in Hab as ->.
    apply delta_bps_one. unfold py_truediv. rewrite Hb.
    apply Z.eqb_neq in Hb. rewrite div_Z_self by exact Hb. reflexivity.
  - intros _ Hv Heq Hz.
    destruct g as [s|s| |s m e]; try discriminate Heq.
    + cbn [Float.eqb_Z] in Heq, Hz. apply Z.eqb_eq in Heq. subst a.
      discriminate.
    + cbn [Float.is_inf]. apply delta_bps_one.
      unfold py_truediv, to_float, float_of_int.
      rewrite (of_Z_exact _ _ _ _ Hv Heq).
      cbn [Float.is_inf mbind outcome_bind Float.is_zero].
      rewrite div_self. reflexivity.
  - intros Hv _ Heq Hz.
    destruct f as [s|s| |s m e]; try discriminate Heq.
    + cbn [Float.eqb_Z] in Heq. congruence.
    + apply delta_bps_one. unfold py_truediv, to_float, float_of_int.
      rewrite (of_Z_exact _ _ _ _ Hv Heq).
      cbn [Float.is_inf mbind outcome_bind Float.is_zero].
      rewrite div_self. reflexivity.
  - unfold Float.eqb. intros _ _.
    destruct f as [s1|s1| |s1 m1 e1], g as [s2|s2| |s2 m2 e2];
      try discriminate.
    all: intros H1 H2.
    all: try (vm_compute in H2; discriminate).
    all: try (destruct s1, s2; vm_compute in H1; discriminate).
    all: try (destruct s1; vm_compute in H1; discriminate).
    all: try (destruct s2; vm_compute in H1; discriminate).
    + cbn [Float.is_inf]. apply delta_bps_nan. reflexivity.
    + cbn [Float.is_inf]. apply SFeqb_finite in H1 as (-> & -> & ->).
      apply delta_bps_one. unfold py_truediv, to_float.
      cbn [mbind outcome_bind Float.is_zero]. rewrite div_self. reflexivity.
Qed.

(** X3: a rate equal ([==]) to a non-zero base has delta 0, so that
    [get_compact_data] keeps the base and returns compact 0, without a
    reset; the one exception is a base that is an infinity, where the
    quotient of the two equal infinities is a NaN and [int()] raises
    [ValueError].  For an integer rate equal to its integer base, zero
    included, the result is always [(base, 0)]. *)
Theorem get_compact_data_same_rate :
  (forall a : Z,
     get_compact_data (PyInt a) (PyInt a) = Ok (CompactData.mk (PyInt a) 0)) /\
  (forall rate base : number,
     valid_number rate = true ->
     valid_number base = true ->
     py_eq rate base = true ->
     py_eq base (PyInt 0) = false ->
     get_compact_data rate base =
       if is_infinite base then Raise ValueError
       else Ok (CompactData.mk base 0)).
Proof.
  split; [exact get_compact_data_int_self|].
  intros rate base Hr Hb Heq Hz. unfold get_compact_data. rewrite Hz.
  rewrite (delta_bps_equal_exact _ _ Hr Hb Heq Hz).
  destruct (is_infinite base); reflexivity.
Qed.

Lemma get_compact_data_same_rate_witness :
  get_compact_data (PyFloat (float_literal 987 1)) (PyFloat (float_literal 987 1))
  = Ok (CompactData.mk (PyFloat (float_literal 987 1)) 0) /\
  get_compact_data (PyFloat (S754_infinity false))
    (PyFloat (S754_infinity false))
  = Raise ValueError.
Proof.
  split.
  - exact (proj2 get_compact_data_same_rate
             (PyFloat (float_literal 987 1)) (PyFloat (float_literal 987 1))
             eq_refl eq_refl eq_refl eq_refl).
  - exact (proj2 get_compact_data_same_rate
             (PyFloat (S754_infinity false)) (PyFloat (S754_infinity false))
             eq_refl eq_refl eq_refl eq_refl).
Defined.

Lemma float_of_int_raises (z : Z) (e : exn) :
  float_of_int z = Raise e -> e = OverflowError.
Proof.
  unfold float_of_int.
  destruct (Float.is_inf (Float.of_Z z)); [intros [= <-]; reflexivity|].
  discriminate.
Qed.

(** With a non-zero divisor, true division can only overflow. *)
Lemma py_truediv_raises (rate base : number) (e : exn) :
  py_eq base (PyInt 0) = false ->
  py_truediv rate base = Raise e -> e = OverflowError.
Proof.
  intros Hz H. unfold py_truediv in H.
  assert (Hfloat : forall fx : Float.t,
            (to_float base ≫= fun fy =>
               if Float.is_zero fy then Raise ZeroDivisionError
               else Ok (Float.div fx fy)) = Raise e -> e = OverflowError).
  { intros fx Hb. apply bind_raise in Hb as [Hb | (fy & Hfy & Hb)].
    - destruct base as [b|g]; [eapply float_of_int_raises, Hb | discriminate].
    - destruct (Float.is_zero fy) eqn:Hzero; [|discriminate]. exfalso.
      destruct base as [b|g].
      + cbn [to_float] in Hfy. unfold float_of_int in Hfy.
        destruct (Float.is_inf (Float.of_Z b)); [discriminate|].
        injection Hfy as <-. cbn [py_eq] in Hz. apply Z.eqb_neq in Hz.
        rewrite (of_Z_nonzero b Hz) in Hzero. discriminate.
      + cbn [to_float] in Hfy. injection Hfy as <-.
        destruct g; first [discriminate | cbn in Hz; discriminate]. }
  destruct rate as [a|f].
  - destruct base as [b|g].
    + cbn [py_eq] in Hz. rewrite Hz in H.
      destruct (Float.is_inf (Float.div_Z a b)); [|discriminate].
      injection H as <-. reflexivity.
    + apply bind_raise in H as [H | (fx & _ & H)];
        [eapply float_of_int_raises, H | eapply Hfloat, H].
  - apply bind_raise in H as [H | (fx & _ & H)];
      [discriminate | eapply Hfloat, H].
Qed.

(** X4: the guard on a zero base is enough: [get_compact_data] never raises
    [ZeroDivisionError].  When it raises, the error is the [OverflowError]
    of a conversion to float, of an integer quotient too large or of
    [int()] on an infinity, or the [ValueError] of [int()] on a NaN. *)
Theorem get_compact_data_errors (rate base : number) (e : exn) :
  get_compact_data rate base = Raise e ->
  e = OverflowError \/ e = ValueError.
Proof.
  intros H. apply get_compact_data_raises in H as [Hz H].
  unfold delta_bps in H.
  apply bind_raise in H as [H | (q & _ & H)].
  - left. eapply py_truediv_raises; eassumption.
  - apply bind_raise in H as [H | (d & _ & H)].
    { vm_compute in H. discriminate. }
    apply bind_raise in H as [H | (p & _ & H)].
    { vm_compute in H. discriminate. }
    destruct p; cbn in H; try discriminate; injection H as <-; auto.
Qed.

Lemma get_compact_data_errors_witness :
  ValueError = OverflowError \/ ValueError = ValueError.
Proof.
  apply (get_compact_data_errors (PyFloat S754_nan) (PyInt 100) ValueError).
  vm_compute. reflexivity.
Defined.



(** ** More on [build_compact_price] *)

Lemma dict_get_elem {V} (k : Z) (d : list (Z * V)) (v : V) :
  dict_get k d = Some v -> (k, v) ∈ d.
Proof.
  induction d as [|[k' v'] d IH]; cbn [dict_get]; [discriminate|].
  destruct (Z.eqb_spec k' k) as [->|Hne].
  - intros [= ->]. apply list_elem_of_here.
  - intros H. apply list_elem_of_further, IH, H.
Qed.

Lemma dict_get_None {V} (k : Z) (d : list (Z * V)) :
  dict_get k d = None <-> k ∉ d.*1.
Proof.
  induction d as [|[k' v'] d IH]; cbn [dict_get].
  - split; [intros _; apply not_elem_of_nil | reflexivity].
  - rewrite fmap_cons, not_elem_of_cons. cbn [fst].
    destruct (Z.eqb_spec k' k) as [->|Hne].
    + split; [discriminate | intros [H _]; congruence].
    + rewrite IH. split; [intros H; split; [congruence | exact H] | tauto].
Qed.

Lemma dict_set_keys {V} (k : Z) (v : V) (d : list (Z * V)) :
  (dict_set k v d).*1 = if decide (k ∈ d.*1) then d.*1 else d.*1 ++ [k].
Proof.
  induction d as [|[k' v'] d IH]; cbn [dict_set].
  - case_decide as H; [by apply elem_of_nil in H | reflexivity].
  - destruct (Z.eqb_spec k' k) as [->|Hne].
    + rewrite !fmap_cons. cbn [fst].
      rewrite decide_True by apply list_elem_of_here. reflexivity.
    + rewrite !fmap_cons, IH. cbn [fst].
      destruct (decide (k ∈ d.*1)) as [Hin|Hin].
      * rewrite decide_True by (apply elem_of_cons; auto). reflexivity.
      * rewrite decide_False; [reflexivity|].
        rewrite elem_of_cons. intros [?|?]; congruence.
Qed.

Lemma dict_set_Forall {V} (Q : Z * V -> Prop) (k : Z) (v : V)
    (d : list (Z * V)) :
  Forall Q d -> Q (k, v) -> Forall Q (dict_set k v d).
Proof.
  intros Hd Hv. induction Hd as [|[k' v'] d Hq Hd IH]; cbn [dict_set].
  - apply Forall_cons_2; [exact Hv | apply Forall_nil_2].
  - destruct (Z.eqb_spec k' k) as [->|Hne].
    + apply Forall_cons_2; assumption.
    + apply Forall_cons_2; assumption.
Qed.

Lemma dict_get_set {V} (k : Z) (v : V) (d : list (Z * V)) :
  dict_get k (dict_set k v d) = Some v.
Proof.
  induction d as [|[k' v'] d IH]; cbn [dict_set dict_get].
  - rewrite Z.eqb_refl. reflexivity.
  - destruct (Z.eqb_spec k' k) as [->|Hne]; cbn [dict_get].
    + rewrite Z.eqb_refl. reflexivity.
    + destruct (Z.eqb_spec k' k); [congruence | exact IH].
Qed.

Lemma list_setitem_ok (P : Z -> Prop) (l l' : list Z) (i v : Z) :
  list_setitem l i v = Ok l' ->
  length l' = length l /\ (Forall P l -> P v -> Forall P l').
Proof.
  unfold list_setitem.
  destruct ((0 <=? i) && (i <? Z.of_nat (length l)));
    [|destruct ((- Z.of_nat (length l) <=? i) && (i <? 0)); [|discriminate]];
    intros [= <-]; (split; [apply length_insert|]);
    intros Hl Hv; apply Forall_insert; assumption.
Qed.

Lemma list_setitem_raises (l : list Z) (i v : Z) (e : exn) :
  list_setitem l i v = Raise e ->
  e = IndexError /\ ~ (- Z.of_nat (length l) <= i < Z.of_nat (length l)).
Proof.
  unfold list_setitem.
  destruct (Z.leb_spec 0 i); destruct (Z.ltb_spec i (Z.of_nat (length l)));
    cbn [andb]; try discriminate;
    destruct (Z.leb_spec (- Z.of_nat (length l)) i);
    destruct (Z.ltb_spec i 0); cbn [andb]; try discriminate;
    intros [= <-]; (split; [reflexivity | lia]).
Qed.

Section BatchShape.
Context (Pb Ps : Z -> Prop) (Pb0 : Pb 0) (Ps0 : Ps 0).
Context (ti : gmap string TokenIndex.t).

Lemma fresh_slot_shape k :
  (fun kv : Z * Slot.t =>
     length (Slot.buy (snd kv)) = 14%nat /\
     length (Slot.sell (snd kv)) = 14%nat /\
     Forall Pb (Slot.buy (snd kv)) /\ Forall Ps (Slot.sell (snd kv)))
    (k, fresh_slot).
Proof.
  cbn [snd fresh_slot Slot.buy Slot.sell].
  split; [reflexivity|]. split; [reflexivity|].
  split; apply Forall_replicate; assumption.
Qed.

Lemma compact_price_step_shape d p d' :
  batch_shape Pb Ps d ->
  Pb (Price.compact_buy p) -> Ps (Price.compact_sell p) ->
  compact_price_step ti d p = Ok d' ->
  batch_shape Pb Ps d'.
Proof.
  intros [Hnd Hall] Hb Hs. unfold compact_price_step.
  intros H. apply bind_ok in H as (i & _ & H).
  apply bind_ok in H as (i' & _ & H). cbv zeta in H.
  set (k := TokenIndex.array_idx i) in *.
  set (d1 := if dict_mem k d then d else dict_set k fresh_slot d) in *.
  assert (Hd1 : batch_shape Pb Ps d1).
  { unfold d1, dict_mem. destruct (dict_get k d) as [v|] eqn:Hget.
    - split; assumption.
    - apply dict_get_None in Hget. split.
      + rewrite dict_set_keys, decide_False by exact Hget.
        apply NoDup_app. split; [exact Hnd|]. split.
        * intros x Hx Hx'. apply list_elem_of_singleton in Hx' as ->.
          contradiction.
        * apply NoDup_singleton.
      + apply dict_set_Forall; [exact Hall | apply fresh_slot_shape]. }
  destruct Hd1 as [Hnd1 Hall1].
  destruct (dict_get k d1) as [v|] eqn:Hget; [|discriminate].
  apply bind_ok in H as (buy & Hbuy & H).
  apply bind_ok in H as (sell & Hsell & H). injection H as <-.
  pose proof (dict_get_elem _ _ _ Hget) as Hin.
  rewrite Forall_forall in Hall1. destruct (Hall1 _ Hin) as (Hl1 & Hl2 & Hf1 & Hf2).
  cbn [snd] in Hl1, Hl2, Hf1, Hf2.
  destruct (list_setitem_ok Pb _ _ _ _ Hbuy) as [Hlb Hfb].
  destruct (list_setitem_ok Ps _ _ _ _ Hsell) as [Hls Hfs].
  split.
  - rewrite dict_set_keys, decide_True; [exact Hnd1|].
    apply list_elem_of_fmap. exists (k, v). split; [reflexivity | exact Hin].
  - apply dict_set_Forall; [apply Forall_forall, Hall1|].
    cbn [snd Slot.buy Slot.sell].
    split; [congruence|]. split; [congruence|]. split; auto.
Qed.

Lemma for_each_shape prices : forall d d',
  batch_shape Pb Ps d ->
  Forall (fun p => Pb (Price.compact_buy p) /\ Ps (Price.compact_sell p))
    prices ->
  for_each (compact_price_step ti) d prices = Ok d' ->
  batch_shape Pb Ps d'.
Proof.
  induction prices as [|p prices IH]; intros d d' Hd Hall; cbn [for_each].
  - intros [= <-]. exact Hd.
  - intros H. apply bind_ok in H as (d1 & Hstep & H).
    apply Forall_cons in Hall as [[Hb Hs] Hall].
    eapply IH; [|exact Hall|exact H].
    eapply compact_price_step_shape; eassumption.
Qed.
End BatchShape.

Section BatchErrors.
Context (ti : gmap string TokenIndex.t).

Lemma step_entry Pb Ps (d : list (Z * Slot.t)) (k : Z) :
  batch_shape Pb Ps d ->
  exists v,
    dict_get k (if dict_mem k d then d else dict_set k fresh_slot d) = Some v /\
    length (Slot.buy v) = 14%nat /\ length (Slot.sell v) = 14%nat.
Proof.
  intros [_ Hall]. unfold dict_mem.
  destruct (dict_get k d) as [v|] eqn:Hget.
  - exists v. split; [exact Hget|].
    apply dict_get_elem in Hget. rewrite Forall_forall in Hall.
    destruct (Hall _ Hget) as (H1 & H2 & _). auto.
  - exists fresh_slot. rewrite dict_get_set. auto.
Qed.

(** What one step of the loop does, by the token and field index of the
    update. *)
Lemma compact_price_step_outcome Pb Ps (d : list (Z * Slot.t)) (p : Price.t) :
  batch_shape Pb Ps d ->
  match ti !! Price.token p with
  | None => compact_price_step ti d p = Raise KeyError
  | Some i =>
      if decide (-14 <= TokenIndex.field_idx i < 14)
      then exists d', compact_price_step ti d p = Ok d'
      else compact_price_step ti d p = Raise IndexError
  end.
Proof.
  intros Hd. unfold compact_price_step, getitem.
  destruct (ti !! Price.token p) as [i|]; [|reflexivity].
  cbn [mbind outcome_bind]. cbv zeta.
  destruct (step_entry Pb Ps d (TokenIndex.array_idx i) Hd)
    as (v & -> & Hl1 & Hl2).
  unfold list_setitem. rewrite Hl1, Hl2.
  change (Z.of_nat 14) with 14. change (Z.opp 14) with (-14).
  case_decide as Hj.
  - destruct (Z.leb_spec 0 (TokenIndex.field_idx i)); cbn [andb].
    + destruct (Z.ltb_spec (TokenIndex.field_idx i) 14); [|lia].
      cbn [mbind outcome_bind]. eauto.
    + destruct (Z.leb_spec (-14) (TokenIndex.field_idx i)); [|lia].
      destruct (Z.ltb_spec (TokenIndex.field_idx i) 0); [|lia].
      cbn [andb mbind outcome_bind]. eauto.
  - destruct (Z.leb_spec 0 (TokenIndex.field_idx i));
      destruct (Z.ltb_spec (TokenIndex.field_idx i) 14);
      destruct (Z.leb_spec (-14) (TokenIndex.field_idx i));
      destruct (Z.ltb_spec (TokenIndex.field_idx i) 0);
      cbn [andb mbind outcome_bind]; first [reflexivity | lia].
Qed.

Lemma for_each_outcome prices : forall d,
  batch_shape (fun _ => True) (fun _ => True) d ->
  (Forall (placeable ti) prices ->
   exists d', for_each (compact_price_step ti) d prices = Ok d') /\
  (~ Forall (placeable ti) prices ->
   for_each (compact_price_step ti) d prices = Raise KeyError \/
   for_each (compact_price_step ti) d prices = Raise IndexError).
Proof.
  induction prices as [|p prices IH]; intros d Hd; cbn [for_each].
  - split; [eauto | intros H; exfalso; apply H, Forall_nil_2].
  - pose proof (compact_price_step_outcome _ _ d p Hd) as Hstep.
    destruct (ti !! Price.token p) as [i|] eqn:Hi.
    + case_decide as Hj.
      * destruct Hstep as (d1 & Hstep). rewrite Hstep.
        cbn [mbind outcome_bind].
        assert (Hd1 : batch_shape (fun _ => True) (fun _ => True) d1)
          by (eapply compact_price_step_shape; eauto).
        destruct (IH d1 Hd1) as [IHok IHerr]. split.
        -- intros Hall. apply Forall_cons in Hall as [_ Hall]. auto.
        -- intros Hall. apply IHerr. intros Hrest. apply Hall.
           apply Forall_cons_2; [|exact Hrest]. exists i. auto.
      * rewrite Hstep. cbn [mbind outcome_bind]. split; [|auto].
        intros Hall. apply Forall_cons in Hall as [(i' & Hi' & Hj') _].
        congruence.
    + rewrite Hstep. cbn [mbind outcome_bind]. split; [|auto].
      intros Hall. apply Forall_cons in Hall as [(i' & Hi' & _) _].
      congruence.
Qed.
End BatchErrors.

Lemma batch_shape_nil Pb Ps : batch_shape Pb Ps [].
Proof. split; [apply NoDup_nil_2 | apply Forall_nil_2]. Qed.

(** X6: whenever [build_compact_price] returns, also when tokens repeat or
    a field index is negative, the three lists it returns come from one
    list of slots: no array index is repeated, every packed array has 14
    entries, and every entry satisfies whatever holds of 0 and of the
    compact values of all the updates. *)
Theorem build_compact_price_shape {Hex : Type} (hexlify : list Z -> Hex)
    (Pb Ps : Z -> Prop) (prices : list Price.t)
    (token_indices : gmap string TokenIndex.t)
    (buy sell : list Hex) (indices : list Z) :
  Pb 0 -> Ps 0 ->
  Forall (fun p => Pb (Price.compact_buy p) /\ Ps (Price.compact_sell p))
    prices ->
  build_compact_price hexlify prices token_indices = Ok (buy, sell, indices) ->
  exists slots : list (Z * Slot.t),
    buy = (fun kv => hexlify (Slot.buy (snd kv))) <$> slots /\
    sell = (fun kv => hexlify (Slot.sell (snd kv))) <$> slots /\
    indices = slots.*1 /\
    batch_shape Pb Ps slots /\
    length buy = length indices /\ length sell = length indices.
Proof.
  intros Hb0 Hs0 Hall. unfold build_compact_price. intros H.
  apply bind_ok in H as (slots & Hslots & H). injection H as <- <- <-.
  exists slots. split; [reflexivity|]. split; [reflexivity|].
  split; [reflexivity|]. split.
  - eapply for_each_shape; [exact Hb0 | exact Hs0 | apply batch_shape_nil
                            | exact Hall | exact Hslots].
  - rewrite !length_fmap. split; reflexivity.
Qed.

Lemma build_compact_price_shape_witness :
  exists slots : list (Z * Slot.t),
    [[0; 0; 0; 0; 0; 0; 0; 0; 0; 0; 0; 0; 0; 1];
     [0; 0; 0; 51; 0; 9; 0; 0; 0; 0; 0; 0; 0; 0]]
    = (fun kv => Slot.buy (snd kv)) <$> slots /\
    [[0; 0; 0; 0; 0; 0; 0; 0; 0; 0; 0; 0; 0; 2];
     [0; 0; 0; 244; 0; 10; 0; 0; 0; 0; 0; 0; 0; 0]]
    = (fun kv => Slot.sell (snd kv)) <$> slots /\
    [7; 0] = slots.*1 /\
    batch_shape compact_byte compact_byte slots /\
    length [[0; 0; 0; 0; 0; 0; 0; 0; 0; 0; 0; 0; 0; 1];
            [0; 0; 0; 51; 0; 9; 0; 0; 0; 0; 0; 0; 0; 0]]
    = length [7; 0] /\
    length [[0; 0; 0; 0; 0; 0; 0; 0; 0; 0; 0; 0; 0; 2];
            [0; 0; 0; 244; 0; 10; 0; 0; 0; 0; 0; 0; 0; 0]]
    = length [7; 0].
Proof.
  apply (build_compact_price_shape (fun l => l) compact_byte compact_byte
           [sample_price "0xC" 1 2; sample_price "0xA" 50 243;
            sample_price "0xB" 9 10; sample_price "0xA" 51 244]
           sample_indices).
  - left. lia.
  - left. lia.
  - repeat (apply Forall_cons_2; [split; unfold compact_byte; cbn; lia|]).
    apply Forall_nil_2.
  - vm_compute. reflexivity.
Defined.

(** X7: [build_compact_price] returns exactly when every update names a
    registered token whose field index is in -14..13; otherwise it raises
    [KeyError] (token not in [token_indices]) or [IndexError] (field index
    outside the 14-element array), and returns nothing for the updates
    that could be placed. *)
Theorem build_compact_price_errors {Hex : Type} (hexlify : list Z -> Hex)
    (prices : list Price.t) (token_indices : gmap string TokenIndex.t) :
  (Forall (placeable token_indices) prices ->
   exists batch, build_compact_price hexlify prices token_indices = Ok batch) /\
  (~ Forall (placeable token_indices) prices ->
   build_compact_price hexlify prices token_indices = Raise KeyError \/
   build_compact_price hexlify prices token_indices = Raise IndexError).
Proof.
  unfold build_compact_price.
  destruct (for_each_outcome token_indices prices [] (batch_shape_nil _ _))
    as [Hok Herr].
  split.
  - intros Hall. destruct (Hok Hall) as (d & ->). cbn [mbind outcome_bind].
    eauto.
  - intros Hall. destruct (Herr Hall) as [-> | ->]; auto.
Qed.

Lemma build_compact_price_errors_witness :
  build_compact_price (fun l => l)
    [sample_price "0xA" 50 243; sample_price "0xZ" 9 10] sample_indices
  = Raise KeyError \/
  build_compact_price (fun l => l)
    [sample_price "0xA" 50 243; sample_price "0xZ" 9 10] sample_indices
  = Raise IndexError.
Proof.
  apply (proj2 (build_compact_price_errors (fun l => l)
                  [sample_price "0xA" 50 243; sample_price "0xZ" 9 10]
                  sample_indices)).
  intros H. apply Forall_cons in H as [_ H].
  apply Forall_cons in H as [(i & Hi & _) _]. vm_compute in Hi. discriminate.
Defined.

(** ** More on [set_rates] *)

Section SetRatesMore.
Context {Hex : Type} (hexlify : list Z -> Hex) (c : chain Hex).

(** The lookups of the dict comprehension, in detail: which tokens are
    asked of the chain, and what the cache holds afterwards. *)
Lemma index_phase_lookups tokens : forall d st r st',
  for_eachM (index_dict_step c) d tokens st = (r, st') ->
  exists toks : list string,
    log st' = log st ++ (GetCompactData <$> toks) /\
    NoDup toks /\
    (forall tok, tok ∈ toks ->
       tok ∈ tokens /\ token_indices st !! tok = None) /\
    (forall tok i, token_indices st !! tok = Some i ->
       token_indices st' !! tok = Some i) /\
    match r with
    | Ok ti =>
        forall tok, tok ∈ tokens ->
          exists i, ti !! tok = Some i /\ token_indices st' !! tok = Some i
    | Raise e =>
        exists tok, tok ∈ tokens /\
                    index_of c (token_indices st) tok = Raise e
    end.
Proof.
  induction tokens as [|t ts IH]; intros d st r st'.
  - intros [= <- <-]. exists []. rewrite app_nil_r.
    split; [reflexivity|]. split; [apply NoDup_nil_2|].
    split; [intros tok H; by apply elem_of_nil in H|].
    split; [auto|]. intros tok H. by apply elem_of_nil in H.
  - cbn [for_eachM]. unfold bind at 1.
    rewrite index_dict_step_run, get_token_indices_run.
    destruct (token_indices st !! t) as [i|] eqn:Hc.
    + intros Hrun.
      destruct (IH _ _ _ _ Hrun) as (toks & Hlog & Hnd & Htoks & Hkeep & Hr).
      exists toks. split; [exact Hlog|]. split; [exact Hnd|]. split.
      { intros tok Htok. destruct (Htoks tok Htok) as [H1 H2].
        split; [apply elem_of_cons; auto | exact H2]. }
      split; [exact Hkeep|].
      destruct r as [ti|e].
      * intros tok Htok. destruct (decide (tok ∈ ts)) as [Hts|Hts];
          [apply Hr, Hts|].
        apply elem_of_cons in Htok as [->|Htok]; [|contradiction].
        pose proof (index_phase _ _ _ _ _ _ Hrun) as (evs & _ & _ & _ & H).
        destruct H as (_ & _ & Hout). exists i.
        rewrite (Hout _ Hts), lookup_insert_eq. split; [reflexivity|].
        apply Hkeep, Hc.
      * destruct Hr as (tok & Htok & Hfail). exists tok.
        split; [apply elem_of_cons; auto | exact Hfail].
    + destruct (getCompactData c t) as [rc|e] eqn:Hchain.
      * intros Hrun.
        destruct (IH _ _ _ _ Hrun) as (toks & Hlog & Hnd & Htoks & Hkeep & Hr).
        cbn [log token_indices] in Hlog, Htoks, Hkeep.
        assert (Hfresh : t ∉ toks).
        { intros Ht. destruct (Htoks t Ht) as [_ Hnone].
          rewrite lookup_insert_eq in Hnone. discriminate. }
        exists (t :: toks).
        split; [rewrite Hlog, <- app_assoc; reflexivity|].
        split; [apply NoDup_cons; auto|]. split.
        { intros tok Htok. apply elem_of_cons in Htok as [->|Htok].
          - split; [apply list_elem_of_here | exact Hc].
          - destruct (Htoks tok Htok) as [H1 H2].
            split; [apply elem_of_cons; auto|].
            destruct (decide (t = tok)) as [->|Hne]; [exact Hc|].
            rewrite lookup_insert_ne in H2 by exact Hne. exact H2. }
        split.
        { intros tok i Hi. apply Hkeep.
          rewrite lookup_insert_ne; [exact Hi | congruence]. }
        destruct r as [ti|e].
        -- intros tok Htok. destruct (decide (tok ∈ ts)) as [Hts|Hts];
             [apply Hr, Hts|].
           apply elem_of_cons in Htok as [->|Htok]; [|contradiction].
           pose proof (index_phase _ _ _ _ _ _ Hrun) as (evs & _ & _ & _ & H).
           destruct H as (_ & _ & Hout). eexists.
           rewrite (Hout _ Hts), lookup_insert_eq. split; [reflexivity|].
           apply Hkeep, lookup_insert_eq.
        -- destruct Hr as (tok & Htok & Hfail). exists tok.
           split; [apply elem_of_cons; auto|].
           rewrite <- Hfail. symmetry. apply index_of_insert; assumption.
      * intros [= <- <-]. exists [t].
        split; [reflexivity|]. split; [apply NoDup_singleton|]. split.
        { intros tok Htok. apply list_elem_of_singleton in Htok as ->.
          split; [apply list_elem_of_here | exact Hc]. }
        split; [auto|]. exists t. split; [apply list_elem_of_here|].
        unfold index_of. rewrite Hc, Hchain. reflexivity.
Qed.

(** A run of [set_rates] is its lookups followed by events that are not
    lookups and do not touch the cache. *)
Lemma set_rates_after_lookups tokens buys sells st :
  let run := set_rates hexlify c tokens buys sells st in
  exists r1 st1 rest,
    for_eachM (index_dict_step c) ∅ tokens st = (r1, st1) /\
    log (snd run) = log st1 ++ rest /\
    token_indices (snd run) = token_indices st1 /\
    (forall tok, GetCompactData tok ∉ rest) /\
    (forall e, r1 = Raise e -> fst run = Raise e /\ rest = []).
Proof.
  cbv zeta. rewrite set_rates_run. cbv zeta.
  destruct (for_eachM (index_dict_step c) ∅ tokens st) as [[ti|e] st1].
  2:{ exists (Raise e), st1, []. rewrite app_nil_r.
      split; [reflexivity|]. split; [reflexivity|]. split; [reflexivity|].
      split; [intros tok; apply not_elem_of_nil|].
      intros e' [= <-]. split; reflexivity. }
  set (reads := mjoin (price_reads c <$> zip3 tokens buys sells)).
  assert (Hreads : forall tok, GetCompactData tok ∉ reads).
  { intros tok Hin. apply task_reads_kind in Hin as (t & b & Hin).
    discriminate. }
  assert (Hcases : forall rest' : list (event Hex),
            (forall tok, GetCompactData tok ∉ rest') ->
            forall r,
            exists r1 st1' rest,
              (Ok ti, st1) = (r1, st1') /\
              log (snd (r : outcome string, with_log (with_log st1 reads) rest'))
              = log st1' ++ rest /\
              token_indices
                (snd (r, with_log (with_log st1 reads) rest'))
              = token_indices st1' /\
              (forall tok, GetCompactData tok ∉ rest) /\
              (forall e, r1 = Raise e ->
                 fst (r, with_log (with_log st1 reads) rest') = Raise e /\
                 rest = [])).
  { intros rest' Hrest' r. exists (Ok ti), st1, (reads ++ rest').
    split; [reflexivity|]. cbn [snd with_log log token_indices].
    split; [rewrite app_assoc; reflexivity|]. split; [reflexivity|].
    split; [|discriminate].
    intros tok Hin. apply elem_of_app in Hin as [Hin|Hin];
      [eapply Hreads | eapply Hrest']; exact Hin. }
  assert (Hnil : forall tok, @GetCompactData Hex tok ∉ []).
  { intros tok. apply not_elem_of_nil. }
  destruct (collect _) as [prices|e].
  2:{ rewrite <- (with_log_nil (with_log st1 reads)).
      apply (Hcases [] Hnil). }
  destruct (build_compact_price hexlify prices ti) as [batch|e].
  2:{ rewrite <- (with_log_nil (with_log st1 reads)).
      apply (Hcases [] Hnil). }
  destruct (blockNumber c) as [block|e]; apply Hcases.
  - intros tok Hin. apply elem_of_cons in Hin as [Hin|Hin]; [discriminate|].
    apply list_elem_of_singleton in Hin. discriminate.
  - intros tok Hin. apply list_elem_of_singleton in Hin. discriminate.
Qed.
End SetRatesMore.

(** X8: in a call of [set_rates] the lookups of token indices come first.
    Each token looked up is one of the call's tokens that was not in the
    cache; none is looked up twice, even when the list names it several
    times; and the entries the cache already had are kept as they were. *)
Theorem set_rates_lookups {Hex : Type} (hexlify : list Z -> Hex)
    (c : chain Hex) (tokens : list string) (buys sells : list number)
    (st : state Hex) :
  let run := set_rates hexlify c tokens buys sells st in
  exists (toks : list string) (rest : list (event Hex)),
    log (snd run) = log st ++ (GetCompactData <$> toks) ++ rest /\
    NoDup toks /\
    (forall tok, tok ∈ toks ->
       tok ∈ tokens /\ token_indices st !! tok = None) /\
    (forall tok, GetCompactData tok ∉ rest) /\
    (forall tok i, token_indices st !! tok = Some i ->
       token_indices (snd run) !! tok = Some i).
Proof.
  cbv zeta.
  destruct (set_rates_after_lookups hexlify c tokens buys sells st)
    as (r1 & st1 & rest & Hphase & Hlog & Hcache & Hrest & _).
  destruct (index_phase_lookups c _ _ _ _ _ Hphase)
    as (toks & Hlog1 & Hnd & Htoks & Hkeep & _).
  exists toks, rest. split; [rewrite Hlog, Hlog1, app_assoc; reflexivity|].
  split; [exact Hnd|]. split; [exact Htoks|]. split; [exact Hrest|].
  intros tok i Hi. rewrite Hcache. apply Hkeep, Hi.
Qed.

(** X9: after a call of [set_rates] that returned, every token of the call
    is in the cache, and a later call for the same tokens, on whatever
    chain and with whatever rates, makes no index lookup at all. *)
Theorem set_rates_fills_cache {Hex : Type} (hexlify : list Z -> Hex)
    (c c' : chain Hex) (tokens : list string)
    (buys sells buys' sells' : list number) (st : state Hex) (h : string) :
  let run := set_rates hexlify c tokens buys sells st in
  fst run = Ok h ->
  (forall tok, tok ∈ tokens -> is_Some (token_indices (snd run) !! tok)) /\
  (forall evs tok,
     log (snd (set_rates hexlify c' tokens buys' sells' (snd run)))
     = log (snd run) ++ evs ->
     GetCompactData tok ∉ evs).
Proof.
  cbv zeta. intros Hok.
  destruct (set_rates_after_lookups hexlify c tokens buys sells st)
    as (r1 & st1 & rest & Hphase & _ & Hcache & _ & Hfail).
  destruct (index_phase_lookups c _ _ _ _ _ Hphase)
    as (_ & _ & _ & _ & _ & Hr).
  destruct r1 as [ti|e].
  2:{ destruct (Hfail e eq_refl) as [He _]. congruence. }
  assert (Hall : forall tok, tok ∈ tokens ->
            is_Some (token_indices
                       (snd (set_rates hexlify c tokens buys sells st)) !! tok)).
  { intros tok Htok. destruct (Hr tok Htok) as (i & _ & Hi).
    rewrite Hcache, Hi. eauto. }
  split; [exact Hall|]. intros evs tok Hevs.
  destruct (set_rates_after_lookups hexlify c' tokens buys' sells'
              (snd (set_rates hexlify c tokens buys sells st)))
    as (r2 & st2 & rest2 & Hphase2 & Hlog2 & _ & Hrest2 & _).
  destruct (index_phase_lookups c' _ _ _ _ _ Hphase2)
    as (toks & Hlog1 & _ & Htoks & _ & _).
  assert (toks = []) as ->.
  { destruct toks as [|t toks]; [reflexivity|]. exfalso.
    destruct (Htoks t (list_elem_of_here _ _)) as [Hin Hnone].
    destruct (Hall t Hin) as [i Hi]. congruence. }
  rewrite Hlog2, Hlog1 in Hevs. cbn [fmap list_fmap] in Hevs.
  rewrite app_nil_r in Hevs. apply app_inv_head in Hevs as <-.
  apply Hrest2.
Qed.

Lemma set_rates_fills_cache_witness :
  (forall tok, tok ∈ ["0xA"; "0xB"] ->
     is_Some (token_indices
                (snd (set_rates (fun l => l) sample_chain ["0xA"; "0xB"]
                        [PyInt 105; PyInt 150] [PyInt 1000; PyInt 990]
                        fresh_state)) !! tok)) /\
  (forall evs tok,
     log (snd (set_rates (fun l => l) unset_chain ["0xA"; "0xB"]
                 [PyInt 1; PyInt 2] [PyInt 3; PyInt 4]
                 (snd (set_rates (fun l => l) sample_chain ["0xA"; "0xB"]
                         [PyInt 105; PyInt 150] [PyInt 1000; PyInt 990]
                         fresh_state))))
     = log (snd (set_rates (fun l => l) sample_chain ["0xA"; "0xB"]
                   [PyInt 105; PyInt 150] [PyInt 1000; PyInt 990]
                   fresh_state)) ++ evs ->
     GetCompactData tok ∉ evs).
Proof.
  apply (set_rates_fills_cache (fun l => l) sample_chain unset_chain
           ["0xA"; "0xB"] [PyInt 105; PyInt 150] [PyInt 1000; PyInt 990]
           [PyInt 1; PyInt 2] [PyInt 3; PyInt 4] fresh_state "0xhash").
  vm_compute. reflexivity.
Defined.

Section SetRatesTrace.
Context {Hex : Type} (hexlify : list Z -> Hex) (c : chain Hex).

Lemma price_reads_full p pr :
  price_of c p = Ok pr -> price_reads c p = both_reads p.
Proof.
  unfold price_of, price_reads, both_reads. intros Hp.
  apply bind_ok in Hp as (bb & Hbb & Hp).
  apply bind_ok in Hp as (cb & Hcb & _).
  rewrite Hbb. cbn [mbind outcome_bind]. rewrite Hcb. reflexivity.
Qed.

Lemma price_of_token p pr :
  price_of c p = Ok pr ->
  Price.token pr = fst (fst p) /\
  compact_byte (Price.compact_buy pr) /\ compact_byte (Price.compact_sell pr).
Proof.
  unfold price_of. intros Hp.
  apply bind_ok in Hp as (bb & _ & Hp).
  apply bind_ok in Hp as (cb & Hcb & Hp).
  apply bind_ok in Hp as (bs & _ & Hp).
  apply bind_ok in Hp as (cs & Hcs & Hp).
  injection Hp as <-. cbn [Price.token Price.compact_buy Price.compact_sell].
  assert (Hbyte : forall rate base r,
            get_compact_data rate base = Ok r ->
            compact_byte (CompactData.compact r)).
  { intros rate base r Hr. pose proof (get_compact_data_leg _ _ _ Hr) as Hleg.
    unfold leg_invariant in Hleg. unfold compact_byte.
    destruct (could_not_fit rate base).
    - destruct Hleg as [_ ->]. lia.
    - destruct Hleg as (_ & d & _ & Hd & ->). destruct (Z.ltb_spec d 0); lia. }
  split; [reflexivity|]. split; eapply Hbyte; eassumption.
Qed.

(** When every task returned, each one made its two reads, and each price
    update is that of its triple. *)
Lemma collect_prices (l : list (string * number * number)) : forall prices,
  collect (price_of c <$> l) = Ok prices ->
  price_reads c <$> l = both_reads <$> l /\
  Forall2 (fun p pr => price_of c p = Ok pr) l prices.
Proof.
  induction l as [|p l IH]; intros prices; cbn [fmap list_fmap collect].
  - intros [= <-]. split; [reflexivity | apply Forall2_nil_2].
  - intros H. apply bind_ok in H as (pr & Hpr & H).
    apply bind_ok in H as (prs & Hprs & H). injection H as <-.
    destruct (IH _ Hprs) as [Hreads Hall]. split.
    + rewrite (price_reads_full _ _ Hpr). f_equal. exact Hreads.
    + apply Forall2_cons_2; assumption.
Qed.

Lemma collect_all_ok (l : list (string * number * number)) :
  Forall (fun p => is_ok (price_of c p) = true) l ->
  exists prices, collect (price_of c <$> l) = Ok prices.
Proof.
  induction 1 as [|p l Hp _ [prices IH]]; cbn [fmap list_fmap collect].
  - eauto.
  - destruct (price_of c p) as [pr|]; [|discriminate].
    cbn [mbind outcome_bind]. rewrite IH. cbn [mbind outcome_bind]. eauto.
Qed.

Lemma zip3_tokens {A B C} (a : list A) : forall (b : list B) (d : list C) p,
  p ∈ zip3 a b d -> fst (fst p) ∈ a.
Proof.
  induction a as [|x a IH]; intros b d p; [intros H; by apply elem_of_nil in H|].
  destruct b as [|y b]; [intros H; by apply elem_of_nil in H|].
  destruct d as [|z d]; [intros H; by apply elem_of_nil in H|].
  cbn [zip3]. intros H. apply elem_of_cons in H as [->|H].
  - apply list_elem_of_here.
  - apply list_elem_of_further. eapply IH, H.
Qed.

(** The complete trace and the ingredients of a call that returned. *)
Lemma set_rates_ok_trace tokens buys sells st h :
  let run := set_rates hexlify c tokens buys sells st in
  fst run = Ok h ->
  exists toks ti prices batch block,
    for_eachM (index_dict_step c) ∅ tokens st
    = (Ok ti, {| token_indices := token_indices (snd run);
                 log := log st ++ (GetCompactData <$> toks) |}) /\
    collect (price_of c <$> zip3 tokens buys sells) = Ok prices /\
    build_compact_price hexlify prices ti = Ok batch /\
    blockNumber c = Ok block /\
    call_contract c (rates_tx prices batch block) = Ok h /\
    log (snd run) =
      log st ++ (GetCompactData <$> toks)
        ++ mjoin (both_reads <$> zip3 tokens buys sells)
        ++ [BlockNumber; Transact (rates_tx prices batch block)].
Proof.
  cbv zeta. rewrite set_rates_run. cbv zeta.
  destruct (for_eachM (index_dict_step c) ∅ tokens st) as [[ti|e] st1] eqn:H1;
    [|discriminate].
  destruct (index_phase_lookups c _ _ _ _ _ H1) as (toks & Hlog1 & _).
  destruct (collect _) as [prices|e] eqn:Hc; [|discriminate].
  destruct (build_compact_price hexlify prices ti) as [batch|e] eqn:Hb;
    [|discriminate].
  destruct (blockNumber c) as [block|e]; [|discriminate].
  cbn [fst snd with_log log token_indices]. intros Hh.
  exists toks, ti, prices, batch, block.
  split; [destruct st1; cbn [log token_indices] in *; congruence|].
  split; [reflexivity|]. split; [exact Hb|]. split; [reflexivity|].
  split; [exact Hh|].
  destruct (collect_prices _ _ Hc) as [-> _].
  rewrite Hlog1, <- !app_assoc. reflexivity.
Qed.
End SetRatesTrace.

Lemma zip3_length {A B C} (a : list A) : forall (b : list B) (d : list C),
  length (zip3 a b d)
  = Nat.min (length a) (Nat.min (length b) (length d)).
Proof.
  induction a as [|x a IH]; intros b d; [reflexivity|].
  destruct b as [|y b]; [reflexivity|].
  destruct d as [|z d]; [cbn; lia|].
  cbn [zip3 length Nat.min]. rewrite IH. reflexivity.
Qed.

Lemma both_reads_length {Hex : Type} (l : list (string * number * number)) :
  length (mjoin (@both_reads Hex <$> l)) = (2 * length l)%nat.
Proof.
  induction l as [|p l IH]; [reflexivity|].
  rewrite fmap_cons.
  change (mjoin (both_reads p :: (@both_reads Hex <$> l)))
    with (@both_reads Hex p ++ mjoin (@both_reads Hex <$> l)).
  rewrite length_app, IH. cbn [both_reads length]. lia.
Qed.

(** X10: a call of [set_rates] that returned made, between its index
    lookups and the read of the block number, exactly the two base-rate
    reads (buy side and sell side) of every (token, buy, sell) triple of
    the zipped lists, in the order the pool ran them: twice the length of
    the shortest list in all.  Then it read the block number and sent its
    transaction, whose hash it returned. *)
Theorem set_rates_reads {Hex : Type} (hexlify : list Z -> Hex)
    (c : chain Hex) (tokens : list string) (buys sells : list number)
    (st : state Hex) (h : string) :
  let run := set_rates hexlify c tokens buys sells st in
  fst run = Ok h ->
  exists (toks : list string) (reads : list (event Hex)) (t : tx Hex),
    log (snd run) =
      log st ++ (GetCompactData <$> toks) ++ reads
        ++ [BlockNumber; Transact t] /\
    reads ≡ₚ mjoin (both_reads <$> zip3 tokens buys sells) /\
    length reads
    = (2 * Nat.min (length tokens) (Nat.min (length buys) (length sells)))%nat /\
    call_contract c t = Ok h.
Proof.
  cbv zeta. intros Hok.
  destruct (set_rates_ok_trace hexlify c tokens buys sells st h Hok)
    as (toks & ti & prices & batch & block & _ & _ & _ & _ & Hh & Hlog).
  exists toks, (mjoin (both_reads <$> zip3 tokens buys sells)),
    (rates_tx prices batch block).
  split; [exact Hlog|]. split; [reflexivity|]. split; [|exact Hh].
  rewrite both_reads_length, zip3_length. reflexivity.
Qed.

Lemma set_rates_reads_witness :
  exists (toks : list string) (reads : list (event (list Z)))
         (t : tx (list Z)),
    log (snd (set_rates (fun l => l) sample_chain ["0xA"; "0xB"]
                [PyInt 105; PyInt 150] [PyInt 1000; PyInt 990] fresh_state)) =
      log fresh_state ++ (GetCompactData <$> toks) ++ reads
        ++ [BlockNumber; Transact t] /\
    reads ≡ₚ mjoin (both_reads <$>
                      zip3 ["0xA"; "0xB"]%string [PyInt 105; PyInt 150]
                        [PyInt 1000; PyInt 990]) /\
    length reads = (2 * Nat.min 2 (Nat.min 2 2))%nat /\
    call_contract sample_chain t = Ok "0xhash"%string.
Proof.
  apply (set_rates_reads (fun l => l) sample_chain ["0xA"; "0xB"]
           [PyInt 105; PyInt 150] [PyInt 1000; PyInt 990] fresh_state
           "0xhash").
  vm_compute. reflexivity.
Defined.

Lemma Forall2_elem_r {A B} (P : A -> B -> Prop) (l : list A) (k : list B) :
  Forall2 P l k -> forall y, y ∈ k -> exists x, x ∈ l /\ P x y.
Proof.
  induction 1 as [|x y l k Hxy _ IH]; intros z Hz.
  - by apply elem_of_nil in Hz.
  - apply elem_of_cons in Hz as [->|Hz].
    + exists x. split; [apply list_elem_of_here | exact Hxy].
    + destruct (IH z Hz) as (x' & Hx' & HP).
      exists x'. split; [apply list_elem_of_further, Hx' | exact HP].
Qed.

Lemma rates_tx_batch {Hex : Type} (prices : list Price.t)
    (batch : list Hex * list Hex * list Z) (block : Z) :
  tx_compact_buy (rates_tx prices batch block) = fst (fst batch) /\
  tx_compact_sell (rates_tx prices batch block) = snd (fst batch) /\
  tx_indices (rates_tx prices batch block) = snd batch.
Proof.
  unfold rates_tx. destruct (existsb Price.base_changed prices);
    split; [reflexivity | split; reflexivity | reflexivity | split; reflexivity].
Qed.

(** X11: with an empty list of tokens, of buy rates or of sell rates, a
    call of [set_rates] that returns has read no base rate and has still
    sent a transaction: [setCompactData] with no array at all. *)
Theorem set_rates_empty {Hex : Type} (hexlify : list Z -> Hex)
    (c : chain Hex) (tokens : list string) (buys sells : list number)
    (st : state Hex) (h : string) :
  let run := set_rates hexlify c tokens buys sells st in
  tokens = [] \/ buys = [] \/ sells = [] ->
  fst run = Ok h ->
  exists (toks : list string) (block : Z),
    blockNumber c = Ok block /\
    call_contract c (SetCompactData [] [] block []) = Ok h /\
    log (snd run) =
      log st ++ (GetCompactData <$> toks)
        ++ [BlockNumber; Transact (SetCompactData [] [] block [])].
Proof.
  cbv zeta. intros Hempty Hok.
  destruct (set_rates_ok_trace hexlify c tokens buys sells st h Hok)
    as (toks & ti & prices & batch & block & _ & Hc & Hb & Hbn & Hh & Hlog).
  assert (Hzip : zip3 tokens buys sells = []).
  { destruct Hempty as [-> | [-> | ->]]; [reflexivity | |].
    - destruct tokens; reflexivity.
    - destruct tokens as [|t tokens]; [reflexivity|].
      destruct buys; reflexivity. }
  rewrite Hzip in Hc, Hlog. cbn [fmap list_fmap collect] in Hc.
  injection Hc as <-. cbn in Hb. injection Hb as <-.
  exists toks, block. split; [exact Hbn|]. split; [exact Hh|]. exact Hlog.
Qed.

Lemma set_rates_empty_witness :
  exists (toks : list string) (block : Z),
    blockNumber sample_chain = Ok block /\
    call_contract sample_chain (SetCompactData [] [] block [])
    = Ok "0xhash"%string /\
    log (snd (set_rates (fun l => l) sample_chain ["0xA"; "0xB"] []
                [PyInt 1000] fresh_state)) =
      log fresh_state ++ (GetCompactData <$> toks)
        ++ [BlockNumber; Transact (SetCompactData [] [] block [])].
Proof.
  apply (set_rates_empty (fun l => l) sample_chain ["0xA"; "0xB"] []
           [PyInt 1000] fresh_state "0xhash").
  - right. left. reflexivity.
  - vm_compute. reflexivity.
Defined.

(** X12: [set_rates] gets as far as sending its transaction, and returns
    what the submission returns, whenever every token has an index (in the
    cache or on the chain) with a field index in -14..13, every triple of
    the zipped lists has a price update (its two base rates can be read
    and compacted), and the block number can be read. *)
Theorem set_rates_succeeds {Hex : Type} (hexlify : list Z -> Hex)
    (c : chain Hex) (tokens : list string) (buys sells : list number)
    (st : state Hex) (block : Z) :
  let run := set_rates hexlify c tokens buys sells st in
  (forall tok, tok ∈ tokens ->
     exists i, index_of c (token_indices st) tok = Ok i /\
               -14 <= TokenIndex.field_idx i < 14) ->
  Forall (fun p => is_ok (price_of c p) = true) (zip3 tokens buys sells) ->
  blockNumber c = Ok block ->
  exists (t : tx Hex) (evs : list (event Hex)),
    fst run = call_contract c t /\
    log (snd run) = log st ++ evs ++ [BlockNumber; Transact t] /\
    Forall (fun e => is_read e = true) evs.
Proof.
  cbv zeta. intros Hidx Hprices Hbn.
  rewrite set_rates_run. cbv zeta.
  destruct (for_eachM (index_dict_step c) ∅ tokens st) as [r1 st1] eqn:H1.
  destruct (index_phase_lookups c _ _ _ _ _ H1) as (toks & Hlog1 & _ & _ & _ & Hr).
  destruct (index_phase c _ _ _ _ _ H1) as (evs1 & _ & _ & _ & Hr').
  destruct r1 as [ti|e].
  2:{ destruct Hr as (tok & Htok & Hfail).
      destruct (Hidx tok Htok) as (i & Hi & _). congruence. }
  destruct Hr' as (_ & Hti & _).
  destruct (collect_all_ok c _ Hprices) as (prices & Hc). rewrite Hc.
  destruct (collect_prices c _ _ Hc) as [Hreads Hall].
  assert (Hplace : Forall (placeable ti) prices).
  { apply Forall_forall. intros pr Hpr.
    destruct (Forall2_elem_r _ _ _ Hall pr Hpr) as (p & Hp & Hprice).
    destruct (price_of_token c _ _ Hprice) as [Htok _].
    apply zip3_tokens in Hp.
    destruct (Hti _ Hp) as (i & Hi & Hio).
    destruct (Hidx _ Hp) as (i' & Hio' & Hrange).
    exists i. rewrite Htok. split; [exact Hi|]. congruence. }
  unfold build_compact_price.
  destruct (for_each_outcome ti prices [] (batch_shape_nil _ _)) as [Hok _].
  destruct (Hok Hplace) as (slots & ->). cbn [mbind outcome_bind].
  rewrite Hbn. eexists _, ((GetCompactData <$> toks)
                ++ mjoin (price_reads c <$> zip3 tokens buys sells)).
  split; [reflexivity|]. split.
  - cbn [snd with_log log]. rewrite Hlog1, <- !app_assoc. reflexivity.
  - apply Forall_app. split.
    + apply Forall_fmap, Forall_forall. intros tok _. reflexivity.
    + apply Forall_forall. intros e He.
      apply task_reads_kind in He as (tok & b & ->). reflexivity.
Qed.

Lemma set_rates_succeeds_witness :
  exists (t : tx (list Z)) (evs : list (event (list Z))),
    fst (set_rates (fun l => l) sample_chain ["0xA"; "0xB"]
           [PyInt 105; PyInt 150] [PyInt 1000; PyInt 990] fresh_state)
    = call_contract sample_chain t /\
    log (snd (set_rates (fun l => l) sample_chain ["0xA"; "0xB"]
                [PyInt 105; PyInt 150] [PyInt 1000; PyInt 990] fresh_state))
    = log fresh_state ++ evs ++ [BlockNumber; Transact t] /\
    Forall (fun e => is_read e = true) evs.
Proof.
  apply (set_rates_succeeds (fun l => l) sample_chain ["0xA"; "0xB"]
           [PyInt 105; PyInt 150] [PyInt 1000; PyInt 990] fresh_state 42).
  - intros tok Htok. apply elem_of_cons in Htok as [->|Htok].
    + eexists. split; [vm_compute; reflexivity | cbn; lia].
    + apply list_elem_of_singleton in Htok as ->.
      eexists. split; [vm_compute; reflexivity | cbn; lia].
  - repeat (apply Forall_cons_2; [vm_compute; reflexivity|]).
    apply Forall_nil_2.
  - reflexivity.
Defined.

(** X13: whatever the rates, every transaction that [set_rates] sends
    carries a well-formed batch: no array index is repeated, each packed
    array handed to [hexlify] has 14 entries, and each entry is a byte
    that is neither 127 nor 128 (0..126 or 129..255). *)
Theorem set_rates_sends_bytes {Hex : Type} (hexlify : list Z -> Hex)
    (c : chain Hex) (tokens : list string) (buys sells : list number)
    (st : state Hex) (evs : list (event Hex)) (t : tx Hex) :
  let run := set_rates hexlify c tokens buys sells st in
  log (snd run) = log st ++ evs ->
  t ∈ transactions evs ->
  exists slots : list (Z * Slot.t),
    tx_compact_buy t = (fun kv => hexlify (Slot.buy (snd kv))) <$> slots /\
    tx_compact_sell t = (fun kv => hexlify (Slot.sell (snd kv))) <$> slots /\
    tx_indices t = slots.*1 /\
    batch_shape compact_byte compact_byte slots.
Proof.
  cbv zeta. intros Hevs Ht.
  destruct (set_rates_cases hexlify c tokens buys sells st)
    as (reads & Hreads & Hcase).
  destruct (reads_no_transaction _ Hreads) as [Hnotx _].
  destruct Hcase as [(e & _ & _ & Hlog) | [_ [(e & _ & _ & Hlog) | Hsent]]].
  - rewrite Hlog in Hevs. apply app_inv_head in Hevs as <-.
    rewrite Hnotx in Ht. by apply elem_of_nil in Ht.
  - rewrite Hlog in Hevs. apply app_inv_head in Hevs as <-.
    rewrite transactions_app, Hnotx in Ht. by apply elem_of_nil in Ht.
  - destruct Hsent as (ti & prices & batch & block & _ & Hc & Hb & _ & _ & Hlog).
    rewrite Hlog in Hevs. apply app_inv_head in Hevs as <-.
    rewrite transactions_app, Hnotx in Ht. cbn in Ht.
    apply list_elem_of_singleton in Ht as ->.
    destruct (rates_tx_batch prices batch block) as (-> & -> & ->).
    unfold build_compact_price in Hb.
    apply bind_ok in Hb as (slots & Hslots & Hb). injection Hb as <-.
    exists slots. split; [reflexivity|]. split; [reflexivity|].
    split; [reflexivity|].
    eapply for_each_shape; [left; lia | left; lia | apply batch_shape_nil
                            | | exact Hslots].
    destruct (collect_prices c _ _ Hc) as [_ Hall].
    apply Forall_forall. intros pr Hpr.
    destruct (Forall2_elem_r _ _ _ Hall pr Hpr) as (p & _ & Hprice).
    destruct (price_of_token c _ _ Hprice) as (_ & H1 & H2). auto.
Qed.

Lemma set_rates_sends_bytes_witness :
  exists slots : list (Z * Slot.t),
    [[0; 0; 0; 50; 0; 0; 0; 0; 0; 0; 0; 0; 0; 0]]
    = (fun kv => Slot.buy (snd kv)) <$> slots /\
    [[0; 0; 0; 0; 0; 246; 0; 0; 0; 0; 0; 0; 0; 0]]
    = (fun kv => Slot.sell (snd kv)) <$> slots /\
    [0] = slots.*1 /\
    batch_shape compact_byte compact_byte slots.
Proof.
  apply (set_rates_sends_bytes (fun l => l) sample_chain ["0xA"; "0xB"]
           [PyInt 105; PyInt 150] [PyInt 1000; PyInt 990] fresh_state
           [GetCompactData "0xA"; GetCompactData "0xB";
            GetBasicRate "0xA" true; GetBasicRate "0xA" false;
            GetBasicRate "0xB" true; GetBasicRate "0xB" false; BlockNumber;
            Transact
              (SetBaseRate ["0xB"%string] [PyInt 150] [PyInt 1000]
                 [[0; 0; 0; 50; 0; 0; 0; 0; 0; 0; 0; 0; 0; 0]]
                 [[0; 0; 0; 0; 0; 246; 0; 0; 0; 0; 0; 0; 0; 0]] 42 [0])]
           (SetBaseRate ["0xB"%string] [PyInt 150] [PyInt 1000]
              [[0; 0; 0; 50; 0; 0; 0; 0; 0; 0; 0; 0; 0; 0]]
              [[0; 0; 0; 0; 0; 246; 0; 0; 0; 0; 0; 0; 0; 0]] 42 [0])).
  - vm_compute. reflexivity.
  - cbn. apply list_elem_of_here.
Defined.

Lemma price_of_same_rates {Hex : Type} (c : chain Hex) p pr :
  same_rates c p -> price_of c p = Ok pr ->
  Price.compact_buy pr = 0 /\ Price.compact_sell pr = 0 /\
  Price.base_changed pr = false.
Proof.
  intros (b & s & Hb & Hs & Hrb & Hrs). unfold price_of.
  rewrite Hrb, Hrs, Hb, Hs. cbn [mbind outcome_bind].
  rewrite !get_compact_data_int_self. cbn [mbind outcome_bind].
  intros [= <-].
  cbn [Price.compact_buy Price.compact_sell Price.base_changed
       CompactData.base].
  unfold py_ne. cbn [py_eq]. rewrite !Z.eqb_refl.
  split; [reflexivity|]. split; reflexivity.
Qed.

Lemma zero_slots_fmap {Hex : Type} (hexlify : list Z -> Hex)
    (slots : list (Z * Slot.t)) :
  batch_shape (fun v => v = 0) (fun v => v = 0) slots ->
  (fun kv => hexlify (Slot.buy (snd kv))) <$> slots
  = replicate (length slots) (hexlify (replicate 14 0)) /\
  (fun kv => hexlify (Slot.sell (snd kv))) <$> slots
  = replicate (length slots) (hexlify (replicate 14 0)).
Proof.
  intros [_ Hall].
  assert (Hz : forall l : list Z,
            length l = 14%nat -> Forall (fun v => v = 0) l ->
            l = replicate 14 0).
  { intros l Hlen Hl. symmetry. apply replicate_as_Forall.
    split; [exact Hlen|]. eapply Forall_impl; [exact Hl|].
    intros v ->. reflexivity. }
  induction Hall as [|kv slots (Hlb & Hls & Hb & Hs) _ [IHb IHs]].
  - split; reflexivity.
  - cbn [fmap list_fmap length replicate]. split.
    + rewrite (Hz _ Hlb Hb). f_equal. exact IHb.
    + rewrite (Hz _ Hls Hs). f_equal. exact IHs.
Qed.

(** X14: when every rate handed to [set_rates] is the integer base rate
    that the chain already records for its token and side, no base rate is
    reset: any transaction the call sends is [setCompactData], its arrays
    are all zero (each packed array is 14 zero bytes), and it names each
    array index once. *)
Theorem set_rates_same_rates {Hex : Type} (hexlify : list Z -> Hex)
    (c : chain Hex) (tokens : list string) (buys sells : list number)
    (st : state Hex) (evs : list (event Hex)) (t : tx Hex) :
  let run := set_rates hexlify c tokens buys sells st in
  Forall (same_rates c) (zip3 tokens buys sells) ->
  log (snd run) = log st ++ evs ->
  t ∈ transactions evs ->
  exists (block : Z) (indices : list Z),
    t = SetCompactData
          (replicate (length indices) (hexlify (replicate 14 0)))
          (replicate (length indices) (hexlify (replicate 14 0)))
          block indices /\
    NoDup indices.
Proof.
  cbv zeta. intros Hsame Hevs Ht.
  destruct (set_rates_cases hexlify c tokens buys sells st)
    as (reads & Hreads & Hcase).
  destruct (reads_no_transaction _ Hreads) as [Hnotx _].
  destruct Hcase as [(e & _ & _ & Hlog) | [_ [(e & _ & _ & Hlog) | Hsent]]].
  - rewrite Hlog in Hevs. apply app_inv_head in Hevs as <-.
    rewrite Hnotx in Ht. by apply elem_of_nil in Ht.
  - rewrite Hlog in Hevs. apply app_inv_head in Hevs as <-.
    rewrite transactions_app, Hnotx in Ht. by apply elem_of_nil in Ht.
  - destruct Hsent as (ti & prices & batch & block & _ & Hc & Hb & _ & _ & Hlog).
    rewrite Hlog in Hevs. apply app_inv_head in Hevs as <-.
    rewrite transactions_app, Hnotx in Ht. cbn in Ht.
    apply list_elem_of_singleton in Ht as ->.
    destruct (collect_prices c _ _ Hc) as [_ Hall].
    assert (Hzero : Forall (fun pr => Price.compact_buy pr = 0 /\
                                      Price.compact_sell pr = 0 /\
                                      Price.base_changed pr = false) prices).
    { apply Forall_forall. intros pr Hpr.
      destruct (Forall2_elem_r _ _ _ Hall pr Hpr) as (p & Hp & Hprice).
      eapply price_of_same_rates; [|exact Hprice].
      eapply Forall_forall in Hsame; [exact Hsame | exact Hp]. }
    assert (Hnone : existsb Price.base_changed prices = false).
    { clear -Hzero. induction Hzero as [|pr prices (_ & _ & Hpr) _ IH];
        [reflexivity|]. cbn [existsb]. rewrite Hpr, IH. reflexivity. }
    unfold rates_tx. rewrite Hnone.
    unfold build_compact_price in Hb.
    apply bind_ok in Hb as (slots & Hslots & Hb). injection Hb as <-.
    cbn [fst snd].
    assert (Hshape : batch_shape (fun v => v = 0) (fun v => v = 0) slots).
    { eapply for_each_shape; [reflexivity | reflexivity | apply batch_shape_nil
                              | | exact Hslots].
      eapply Forall_impl; [exact Hzero|]. intros pr (H1 & H2 & _). auto. }
    destruct (zero_slots_fmap hexlify slots Hshape) as [-> ->].
    exists block, slots.*1. rewrite length_fmap.
    split; [reflexivity|]. apply Hshape.
Qed.

Lemma set_rates_same_rates_witness :
  exists (block : Z) (indices : list Z),
    SetCompactData [replicate 14 0] [replicate 14 0] 42 [0]
    = SetCompactData
        (replicate (length indices) (replicate 14 0))
        (replicate (length indices) (replicate 14 0))
        block indices /\
    NoDup indices.
Proof.
  apply (set_rates_same_rates (fun l => l) sample_chain ["0xA"; "0xB"]
           [PyInt 100; PyInt 100] [PyInt 1000; PyInt 1000] fresh_state
           [GetCompactData "0xA"; GetCompactData "0xB";
            GetBasicRate "0xA" true; GetBasicRate "0xA" false;
            GetBasicRate "0xB" true; GetBasicRate "0xB" false; BlockNumber;
            Transact (SetCompactData [replicate 14 0] [replicate 14 0] 42 [0])]).
  - repeat (apply Forall_cons_2;
            [exists 100, 1000;
             split; [reflexivity | split; [reflexivity | split; reflexivity]]|]).
    apply Forall_nil_2.
  - vm_compute. reflexivity.
  - cbn. apply list_elem_of_here.
Defined.

(** X15: [add_new_token] is not atomic.  It sends [addToken],
    [setTokenControlInfo] and [enableTokenTrade] in that order and stops
    at the first one that fails: the [n] transactions it has sent (1 to 3)
    are the first [n] of the three, all but the last of them went through
    and stay sent, a failure is that of the last one sent, and the call
    returns only when all three went through.  In particular trade is
    never enabled unless the token was added and its control info set. *)
Theorem add_new_token_steps
    (send : list Onboarding.pricing_call -> Onboarding.pricing_call
            -> outcome string)
    (token : string) (mrr mpbi mti : Z)
    (sent : list Onboarding.pricing_call) :
  let steps := Onboarding.steps token mrr mpbi mti in
  let run := Onboarding.add_new_token send token mrr mpbi mti sent in
  exists n : nat,
    (1 <= n <= 3)%nat /\
    snd run = sent ++ take n steps /\
    (forall k f, (S k < n)%nat -> steps !! k = Some f ->
       is_ok (send (sent ++ take k steps) f) = true) /\
    (forall f, steps !! Nat.pred n = Some f ->
       match fst run with
       | Ok _ => n = 3%nat /\ is_ok (send (sent ++ take 2 steps) f) = true
       | Raise e => send (sent ++ take (Nat.pred n) steps) f = Raise e
       end).
Proof.
  cbv zeta.
  unfold Onboarding.add_new_token, Onboarding.bind, Onboarding.add_token,
    Onboarding.set_token_control_info, Onboarding.enable_token_trade,
    Onboarding.call_contract_func, Onboarding.steps.
  destruct (send sent (Onboarding.AddToken token)) as [h1|e1] eqn:H1.
  2:{ exists 1%nat. cbn [fst snd take Nat.pred].
      split; [lia|]. split; [reflexivity|].
      split; [intros k f Hk; lia|].
      intros f [= <-]. rewrite app_nil_r. exact H1. }
  destruct (send (sent ++ [Onboarding.AddToken token])
              (Onboarding.SetTokenControlInfo token mrr mpbi mti))
    as [h2|e2] eqn:H2.
  2:{ exists 2%nat. cbn [fst snd take Nat.pred].
      split; [lia|]. split; [rewrite <- app_assoc; reflexivity|].
      split.
      - intros [|k] f Hk; [|lia]. intros [= <-]. cbn [take].
        rewrite app_nil_r, H1. reflexivity.
      - intros f [= <-]. exact H2. }
  destruct (send ((sent ++ [Onboarding.AddToken token])
                    ++ [Onboarding.SetTokenControlInfo token mrr mpbi mti])
              (Onboarding.EnableTokenTrade token)) as [h3|e3] eqn:H3;
    rewrite <- app_assoc in H3; cbn [app] in H3;
    exists 3%nat; cbn [fst snd take Nat.pred];
    (split; [lia|]); (split; [rewrite <- !app_assoc; reflexivity|]);
    (split;
     [intros [|[|k]] f Hk; [| |lia]; intros [= <-]; cbn [take];
      [rewrite app_nil_r, H1 | rewrite H2]; reflexivity|]);
    intros f [= <-].
  - split; [reflexivity|]. rewrite H3. reflexivity.
  - exact H3.
Qed.

(** ** The single transaction of [set_rates] *)



